(** * BBopt: the session controller and its exclusive file store

    A shallow embedding of [bbopt/optimizer.py] (class [BlackBoxOptimizer]).

    Python objects are modelled by the untyped universe [pyval]; dictionaries
    are [gmap]s, so that Python's order-insensitive dictionary equality is
    Leibniz equality.  A method of the class is a computation in the monad
    [M], which threads the object ([self]) and the outside world (files,
    advisory locks, wall clock) and may raise a Python exception.  What the
    module imports from elsewhere (json, pickle, the strategy registry, the
    constants) is an interface, see [Constants], [Codec] and [Strategies]. *)

From stdpp Require Import gmap strings list fin_maps sorting.
From stdpp Require Import pretty.
From Stdlib Require Import ZArith Ascii.

#[local] Set Warnings "-register-all".
#[local] Open Scope string_scope.
#[local] Open Scope Z_scope.
#[local] Open Scope list_scope.

(** ** Python values *)

(** Numbers are integers: floating point rounding, NaN and the coercions of
    Python's numeric equality ([True == 1 == 1.0]) are outside the model.
    [PNpNum] is a numpy scalar ([np.generic]), [PArray shape items] a
    [np.ndarray] given by its shape and its items in row-major order. *)
Inductive pyval : Type :=
| PNone
| PNum (z : Z)
| PStr (s : string)
| PList (l : list pyval)
| PTuple (l : list pyval)
| PDict (d : gmap string pyval)
| PNpNum (z : Z)
| PArray (shape : list nat) (items : list Z).

#[global] Instance pyval_eq_dec : EqDecision pyval.
Proof.
  refine (fix go (x y : pyval) {struct x} : Decision (x = y) :=
    let _ : EqDecision pyval := @go in
    match x, y with
    | PNone, PNone => left _
    | PNum a, PNum b => cast_if (decide (a = b))
    | PStr a, PStr b => cast_if (decide (a = b))
    | PList a, PList b => cast_if (decide (a = b))
    | PTuple a, PTuple b => cast_if (decide (a = b))
    | PDict a, PDict b => cast_if (decide (a = b))
    | PNpNum a, PNpNum b => cast_if (decide (a = b))
    | PArray s a, PArray t b => cast_if_and (decide (s = t)) (decide (a = b))
    | _, _ => right _
    end); abstract congruence.
Defined.

#[global] Instance pyval_inhabited : Inhabited pyval := populate PNone.

(** [isinstance(v, Str)] *)
Definition is_Str (v : pyval) : bool :=
  match v with PStr _ => true | _ => false end.

(** ** Exceptions and outcomes *)

Inductive exn : Type :=
| TypeError (msg : string)
| ValueError (msg : string)
| AttributeError (attr : string)
| KeyError (key : pyval)
| AssertionError (msg : string)
| MatchError (value : pyval)
| FileNotFoundError (path : string)
| LockException (path : string)
| CodecError (msg : string)
| BackendError (msg : string).

Inductive outcome (A : Type) : Type :=
| Ok (a : A)
| Raise (e : exn).
Arguments Ok {A} a.
Arguments Raise {A} e.

Definition is_Ok {A} (o : outcome A) : bool :=
  match o with Ok _ => true | Raise _ => false end.

Definition is_Raise {A} (o : outcome A) : bool := negb (is_Ok o).

(** ** The outside world *)

(** What a process does to the world is recorded, oldest event first. *)
Inductive event : Type :=
| EvEnsure (path : string)
| EvLockRequest (path mode : string)
| EvLockAcquired (path : string)
| EvLockReleased (path : string)
| EvTime (t : Z)
| EvRead (path : string)
| EvClear (path : string)
| EvWrite (path data : string)
| EvSync (path : string).

#[global] Instance event_eq_dec : EqDecision event.
Proof. solve_decision. Defined.

(** [files]: the contents of every existing file; [locked]: the paths whose
    advisory lock is held at the moment; [now]: what [time.time()] returns. *)
Record world : Type := World {
  files : gmap string string;
  locked : gset string;
  now : Z;
  log : list event
}.

Definition emit (e : event) (w : world) : world :=
  World (files w) (locked w) (now w) (log w ++ [e]).

Definition put_file (path data : string) (w : world) : world :=
  World (<[path := data]> (files w)) (locked w) (now w) (log w).

Definition set_locked (l : gset string) (w : world) : world :=
  World (files w) l (now w) (log w).

(** ** What the module imports *)

(** [bbopt.constants], and the path functions of [bbopt.util] and [os.path]. *)
Class Constants : Type := {
  data_file_ext : string;
  default_protocol : pyval;
  norm_path : string → string;
  splitext : string → string * string
}.

(** [json], [pickle] and [bbopt.util.json_serialize]. *)
Class Codec : Type := {
  json_loads : string → outcome pyval;
  json_dumps : pyval → outcome string;
  json_serialize : pyval → outcome pyval;
  pickle_loads : string → outcome pyval;
  pickle_dumps : pyval → pyval → outcome string
}.

(** [bbopt.registry] and [bbopt.params]: the strategies ("backends"), an
    instance of which is a value of [backend_t].  [is_serving_instance b] is
    [isinstance(b, backend_registry[None])]. *)
Class Strategies : Type := {
  backend_t : Type;
  alg_registry : pyval → option (pyval * gmap string pyval);
  init_backend : pyval → list pyval → pyval → list pyval →
                 gmap string pyval → outcome backend_t;
  backend_param : backend_t → string → string → list pyval →
                  gmap string pyval → outcome pyval * backend_t;
  is_serving_instance : backend_t → bool;
  standardize_args : string → list pyval → outcome (list pyval);
  standardize_kwargs : gmap string pyval → outcome (gmap string pyval)
}.

(** ** The object *)

Section Optimizer.
Context `{Constants} `{Codec} `{Strategies}.

(** The three attributes that [run_backend] sets together; they do not exist
    before the first run. *)
Record run_state : Type := RunState {
  backend : backend_t;
  _new_params : gmap string pyval;
  _current_example : gmap string pyval
}.

Record optimizer : Type := Optimizer {
  _file : string;
  _protocol : pyval;
  _old_params : pyval;
  _examples : list pyval;
  the_run : option run_state
}.

Record state : Type := State {
  self : optimizer;
  env : world
}.

(** ** The monad of methods *)

Definition M (A : Type) : Type := state → outcome A * state.

Definition ret {A} (a : A) : M A := λ s, (Ok a, s).
Definition raise {A} (e : exn) : M A := λ s, (Raise e, s).
Definition lift {A} (o : outcome A) : M A := λ s, (o, s).
Definition bind {A B} (c : M A) (k : A → M B) : M B :=
  λ s, match c s with
       | (Ok a, s') => k a s'
       | (Raise e, s') => (Raise e, s')
       end.
Definition gets {A} (f : state → A) : M A := λ s, (Ok (f s), s).
Definition modify (f : state → state) : M unit := λ s, (Ok tt, f s).

(** [try: c finally: cleanup] *)
Definition finally {A} (c : M A) (cleanup : state → state) : M A :=
  λ s, let (r, s') := c s in (r, cleanup s').

End Optimizer.

Notation "'let!' x ':=' c 'in' k" := (bind c (λ x, k))
  (at level 10, x binder, c at level 100, k at level 200).
Notation "'do!' c 'in' k" := (bind c (λ _, k))
  (at level 10, c at level 100, k at level 200).

Section Methods.
Context `{Constants} `{Codec} `{Strategies}.

(** ** Field updates *)

Definition set_file (f : string) (o : optimizer) : optimizer :=
  Optimizer f (_protocol o) (_old_params o) (_examples o) (the_run o).
Definition set_protocol (p : pyval) (o : optimizer) : optimizer :=
  Optimizer (_file o) p (_old_params o) (_examples o) (the_run o).
Definition set_old_params (p : pyval) (o : optimizer) : optimizer :=
  Optimizer (_file o) (_protocol o) p (_examples o) (the_run o).
Definition set_examples (l : list pyval) (o : optimizer) : optimizer :=
  Optimizer (_file o) (_protocol o) (_old_params o) l (the_run o).
Definition set_run (r : option run_state) (o : optimizer) : optimizer :=
  Optimizer (_file o) (_protocol o) (_old_params o) (_examples o) r.

Definition on_self (f : optimizer → optimizer) : M unit :=
  modify (λ s, State (f (self s)) (env s)).
Definition on_env (f : world → world) : M unit :=
  modify (λ s, State (self s) (f (env s))).

(** Reading [self.backend], [self._new_params] or [self._current_example]
    before the first run is an [AttributeError]. *)
Definition get_run (attr : string) : M run_state :=
  let! r := gets (λ s, the_run (self s)) in
  match r with
  | Some r => ret r
  | None => raise (AttributeError attr)
  end.

Definition put_run (r : run_state) : M unit := on_self (set_run (Some r)).

(** ** Files, locks and the clock *)

Definition os_path_exists (path : string) : M bool :=
  gets (λ s, bool_decide (is_Some (files (env s) !! path))).

(** Modelled from the spec: [bbopt.util.ensure_file], which is not among the
    sources, creates an empty file if there is none. *)
Definition ensure_file (path : string) : M unit :=
  do! on_env (emit (EvEnsure path)) in
  let! there := os_path_exists path in
  if there then ret tt else on_env (put_file path "").

Definition release (path : string) (s : state) : state :=
  State (self s)
        (emit (EvLockReleased path)
              (set_locked (locked (env s) ∖ {[path]}) (env s))).

(** [with Lock(path, mode, timeout=lock_timeout) as df: body].  Both modes
    the class uses ("rb", "rb+") need the file to exist.  A lock that another
    process holds for longer than the timeout makes the acquisition fail.
    The lock is released however the body ends. *)
Definition lock_acquire (path mode : string) : M unit :=
  do! on_env (emit (EvLockRequest path mode)) in
  let! there := os_path_exists path in
  if negb there then raise (FileNotFoundError path) else
  let! held := gets (λ s, bool_decide (path ∈ locked (env s))) in
  if held then raise (LockException path) else
  on_env (λ w, emit (EvLockAcquired path)
                    (set_locked ({[path]} ∪ locked w) w)).

Definition Lock {A} (path mode : string) (body : M A) : M A :=
  do! lock_acquire path mode in
  finally body (release path).

(** [df.read()] *)
Definition df_read (path : string) : M string :=
  do! on_env (emit (EvRead path)) in
  gets (λ s, default "" (files (env s) !! path)).

(** Modelled from the spec: [bbopt.util.clear_file], which is not among the
    sources, truncates the file. *)
Definition clear_file (path : string) : M unit :=
  on_env (λ w, emit (EvClear path) (put_file path "" w)).

(** [df.write(data)], at the end of what the file holds. *)
Definition df_write (path data : string) : M unit :=
  on_env (λ w, emit (EvWrite path data)
                    (put_file path (default "" (files w !! path) +:+ data) w)).

(** Modelled from the spec: [bbopt.util.sync_file], which is not among the
    sources, flushes the file to durable storage. *)
Definition sync_file (path : string) : M unit :=
  on_env (emit (EvSync path)).

(** [time.time()] *)
Definition time_time : M Z :=
  let! t := gets (λ s, now (env s)) in
  do! on_env (emit (EvTime t)) in
  ret t.

(** ** numpy values *)

Definition prod_shape (shape : list nat) : nat := foldr Nat.mul 1%nat shape.

(** What iterating over an array yields: its items along the first axis. *)
Definition ndarray_iter (shape : list nat) (items : list Z) : list pyval :=
  match shape with
  | [] => []
  | n :: shape' =>
      (λ i, let chunk := take (prod_shape shape')
                              (drop (i * prod_shape shape') items) in
            match shape' with
            | [] => PNpNum (default 0 (head chunk))
            | _ => PArray shape' chunk
            end) <$> seq 0 n
  end.

(** [obj.tolist()] *)
Fixpoint ndarray_tolist (shape : list nat) (items : list Z) : pyval :=
  match shape with
  | [] => PNum (default 0 (head items))
  | n :: shape' =>
      PList ((λ i, ndarray_tolist shape'
                     (take (prod_shape shape')
                           (drop (i * prod_shape shape') items))) <$> seq 0 n)
  end.

(** Modelled from the spec: [bbopt.util.denumpy_all], which is not among the
    sources, is the normalization pass of the record codec: "numeric-array-like
    values become either a scalar or a plain sequence", recursively. *)
Fixpoint denumpy_all (v : pyval) : pyval :=
  match v with
  | PNpNum z => PNum z
  | PArray shape items => ndarray_tolist shape items
  | PList l => PList (denumpy_all <$> l)
  | PTuple l => PTuple (denumpy_all <$> l)
  | PDict d => PDict (denumpy_all <$> d)
  | _ => v
  end.

(** No numpy value anywhere inside. *)
Fixpoint is_plain (v : pyval) : bool :=
  match v with
  | PNpNum _ | PArray _ _ => false
  | PList l | PTuple l => forallb is_plain l
  | PDict d => map_fold (λ _ x b, is_plain x && b) true d
  | _ => true
  end.

(** ** The class [BlackBoxOptimizer] *)

(** [_use_json] *)
Definition _use_json (o : optimizer) : bool :=
  bool_decide (_protocol o = PStr "json").

(** [data_file] *)
Definition data_file (o : optimizer) : string :=
  (splitext (_file o)).1 +:+ data_file_ext +:+
  (if _use_json o then ".json" else ".pickle").

(** [_loads]; decoding the bytes as UTF-8 is part of [json_loads]. *)
Definition loads_of (o : optimizer) (raw_contents : string) : outcome pyval :=
  if _use_json o then json_loads raw_contents
  else pickle_loads raw_contents.

Definition _loads (raw_contents : string) : M pyval :=
  let! o := gets self in
  lift (loads_of o raw_contents).

(** [_dumps] *)
Definition dumps_of (o : optimizer) (unserialized_data : pyval) : outcome string :=
  if _use_json o then
    match json_serialize unserialized_data with
    | Ok v => json_dumps v
    | Raise e => Raise e
    end
  else pickle_dumps unserialized_data (_protocol o).

Definition _dumps (unserialized_data : pyval) : M string :=
  let! o := gets self in
  lift (dumps_of o unserialized_data).

(** [run_backend] *)
Definition run_backend (name : pyval) (args : list pyval)
    (options : gmap string pyval) : M unit :=
  let! o := gets self in
  let! b := lift (init_backend name (_examples o) (_old_params o) args options) in
  put_run (RunState b ∅ {[ "values" := PDict ∅ ]}).

(** [run] *)
Definition run (alg : pyval) : M unit :=
  match alg_registry alg with
  | Some (name, options) => run_backend name [] options
  | None => raise (KeyError alg)
  end.

(** [_got_reward] *)
Definition got_reward (r : run_state) : bool :=
  bool_decide (is_Some (_current_example r !! "loss")) ||
  bool_decide (is_Some (_current_example r !! "gain")).

Definition _got_reward : M bool :=
  let! r := get_run "_current_example" in
  ret (got_reward r).

Definition set_new_params (p : gmap string pyval) (r : run_state) : run_state :=
  RunState (backend r) p (_current_example r).
Definition set_current_example (e : gmap string pyval) (r : run_state) : run_state :=
  RunState (backend r) (_new_params r) e.
Definition set_backend (b : backend_t) (r : run_state) : run_state :=
  RunState b (_new_params r) (_current_example r).

(** [self.backend.param(name, func, *args, **kwargs)]; the strategy may
    change its own state. *)
Definition call_backend_param (name func : string) (args : list pyval)
    (kwargs : gmap string pyval) : M pyval :=
  let! r := get_run "backend" in
  let (v, b) := backend_param (backend r) name func args kwargs in
  do! put_run (set_backend b r) in
  lift v.

(** [_param] *)
Definition _param (name : pyval) (func : string) (args : list pyval)
    (kwargs : gmap string pyval) : M pyval :=
  let! got := _got_reward in
  if got then
    raise (ValueError "all parameter definitions must come before maximize/minimize")
  else
  match name with
  | PStr n =>
      let! r := get_run "_new_params" in
      if bool_decide (n ∈ dom (_new_params r)) then
        raise (ValueError "parameter of that name already exists")
      else
      let! args := lift (standardize_args func args) in
      let! kwargs := lift (standardize_kwargs kwargs) in
      let! value := call_backend_param n func args kwargs in
      let! r := get_run "_new_params" in
      do! put_run (set_new_params
                     (<[n := PTuple [PStr func; PTuple args; PDict kwargs]]>
                        (_new_params r)) r) in
      let! r := get_run "_current_example" in
      match _current_example r !! "values" with
      | Some (PDict values) =>
          do! put_run (set_current_example
                         (<["values" := PDict (<[n := value]> values)]>
                            (_current_example r)) r) in
          ret value
      | Some _ => raise (TypeError "object does not support item assignment")
      | None => raise (KeyError (PStr "values"))
      end
  | _ => raise (TypeError "name must be a string")
  end.

(** [d.update(other)]: [other] is a mapping, or a sequence of key-value
    pairs.  Keys are strings in this model. *)
Definition key_value (v : pyval) : option (string * pyval) :=
  match v with
  | PList [PStr k; x] | PTuple [PStr k; x] => Some (k, x)
  | _ => None
  end.

Definition dict_update (d : gmap string pyval) (other : pyval)
    : outcome (gmap string pyval) :=
  match other with
  | PDict i => Ok (i ∪ d)
  | PList l | PTuple l =>
      foldl (λ acc v,
               match acc, key_value v with
               | Ok m, Some (k, x) => Ok (<[k := x]> m)
               | Ok _, None =>
                   Raise (TypeError "cannot convert dictionary update sequence element")
               | Raise e, _ => Raise e
               end)
            (Ok d) l
  | _ => Raise (TypeError "object is not iterable")
  end.

(** [remember]: [setdefault] first, then [update]. *)
Definition remember (info : pyval) : M unit :=
  let! got := _got_reward in
  if got then
    raise (ValueError "remember calls must come before maximize/minimize")
  else
  let! r := get_run "_current_example" in
  let memo := default (PDict ∅) (_current_example r !! "memo") in
  do! put_run (set_current_example (<["memo" := memo]> (_current_example r)) r) in
  let! r := get_run "_current_example" in
  match memo with
  | PDict m =>
      let! m' := lift (dict_update m info) in
      put_run (set_current_example
                 (<["memo" := PDict m']> (_current_example r)) r)
  | _ => raise (AttributeError "update")
  end.

(** [is_serving] *)
Definition is_serving : M bool :=
  let! r := get_run "backend" in
  ret (is_serving_instance (backend r)).

(** [tell_examples]: an example is appended unless an equal one is there. *)
Definition merge_examples (own examples : list pyval) : list pyval :=
  foldl (λ acc ex, if bool_decide (ex ∈ acc) then acc else acc ++ [ex])
        own examples.

Definition tell_examples (examples : list pyval) : M unit :=
  on_self (λ o, set_examples (merge_examples (_examples o) examples) o).

(** What [for ex in examples] goes through.  (A dictionary yields its keys;
    the model yields them in the order of the map, not of insertion.) *)
Definition py_iter (v : pyval) : outcome (list pyval) :=
  match v with
  | PList l | PTuple l => Ok l
  | PDict d => Ok (PStr <$> (map_to_list d).*1)
  | PStr s => Ok ((λ c, PStr (String c "")) <$> String.list_ascii_of_string s)
  | PArray (n :: shape) items => Ok (ndarray_iter (n :: shape) items)
  | _ => Raise (TypeError "object is not iterable")
  end.

(** The pattern [{"params": params, "examples": examples}] of [_load_from]:
    a mapping of length 2 that has both keys. *)
Definition match_history (v : pyval) : option (pyval * pyval) :=
  match v with
  | PDict d =>
      if bool_decide (size d = 2%nat) then
        match d !! "params", d !! "examples" with
        | Some params, Some examples => Some (params, examples)
        | _, _ => None
        end
      else None
  | _ => None
  end.

(** [_load_from] *)
Definition _load_from (df : string) : M unit :=
  let! contents := df_read df in
  if bool_decide (contents = "") then ret tt else
  let! v := _loads contents in
  match match_history v with
  | Some (params, examples) =>
      do! on_self (set_old_params params) in
      let! exs := lift (py_iter examples) in
      tell_examples exs
  | None => raise (MatchError v)
  end.

(** [_load_data] *)
Definition _load_data : M unit :=
  let! path := gets (λ s, data_file (self s)) in
  do! ensure_file path in
  Lock path "rb" (_load_from path).

(** [get_data]: [dict.update] lets the new definitions win. *)
Definition history_mapping (params examples : pyval) : pyval :=
  PDict (<["params" := params]> {[ "examples" := examples ]}).

Definition history (params : pyval) (examples : list pyval) : pyval :=
  history_mapping params (PList examples).

Definition get_data : M pyval :=
  let! o := gets self in
  match _old_params o with
  | PDict d =>
      let! r := get_run "_new_params" in
      do! on_self (set_old_params (PDict (_new_params r ∪ d))) in
      let! o := gets self in
      ret (history (_old_params o) (_examples o))
  | _ => raise (AttributeError "update")
  end.

(** [num_examples] *)
Definition num_examples : M nat := gets (λ s, length (_examples (self s))).

(** The statements of a block, one after the other. *)
Definition block (stmts : list (M unit)) : M unit :=
  foldr (λ c k, do! c in k) (ret tt) stmts.

(** The statements of [_save_data] under the lock. *)
Definition stamp_current_example : M unit :=
  let! t := time_time in
  let! r := get_run "_current_example" in
  put_run (set_current_example (<["timestamp" := PNum t]> (_current_example r)) r).

Definition tell_current_example : M unit :=
  let! r := get_run "_current_example" in
  tell_examples [PDict (_current_example r)].

Definition write_data (df : string) : M unit :=
  let! data := get_data in
  let! raw := _dumps data in
  df_write df raw.

Definition save_block (df : string) : list (M unit) :=
  [ stamp_current_example;
    tell_current_example;
    _load_from df;
    clear_file df;
    write_data df;
    sync_file df ].

(** [_save_data] *)
Definition _save_data : M unit :=
  let! r := get_run "_current_example" in
  if bool_decide (is_Some (_current_example r !! "timestamp")) then
    raise (AssertionError "multiple _save_data calls on _current_example")
  else
  let! path := gets (λ s, data_file (self s)) in
  Lock path "rb+" (block (save_block path)).

(** [_set_reward] *)
Definition _set_reward (reward_type : string) (value : pyval) : M unit :=
  let! got := _got_reward in
  if got then
    raise (ValueError "only one call to maximize or minimize is allowed")
  else
  let! value :=
    match value with
    | PArray shape items =>
        if bool_decide (length shape ≠ 1%nat) then
          raise (ValueError "gain/loss must be a scalar or 1-dimensional array")
        else ret (PTuple (ndarray_iter shape items))
    | _ => ret value
    end in
  let! r := get_run "_current_example" in
  do! put_run (set_current_example
                 (<[reward_type := denumpy_all value]> (_current_example r)) r) in
  let! serving := is_serving in
  if negb serving then _save_data else ret tt.

(** [minimize], [maximize] *)
Definition minimize (value : pyval) : M unit := _set_reward "loss" value.
Definition maximize (value : pyval) : M unit := _set_reward "gain" value.

(** [get_current_run] *)
Definition get_current_run : M pyval :=
  λ s, match get_run "_current_example" s with
       | (Ok r, s') => (Ok (PDict (_current_example r)), s')
       | (Raise (AttributeError _), s') =>
           (Raise (ValueError "get_current_run calls must come after run"), s')
       | (Raise e, s') => (Raise e, s')
       end.

(** [reload] *)
Definition reload : M unit :=
  do! on_self (set_old_params (PDict ∅)) in
  do! on_self (set_examples []) in
  do! _load_data in
  run PNone.

(** [__init__] *)
Definition __init__ (file protocol : pyval) : M unit :=
  match file with
  | PStr f =>
      do! on_self (set_file (norm_path f)) in
      do! match protocol with
          | PNone =>
              do! on_self (set_protocol (PStr "json")) in
              let! path := gets (λ s, data_file (self s)) in
              let! there := os_path_exists path in
              if negb there then on_self (set_protocol default_protocol)
              else ret tt
          | _ => on_self (set_protocol protocol)
          end in
      reload
  | _ => raise (TypeError "file must be a string")
  end.

(** [BlackBoxOptimizer(file, protocol)]: [__init__] on an object that has no
    attribute yet. *)
Definition no_attributes : optimizer := Optimizer "" PNone PNone [] None.

Definition BlackBoxOptimizer (file protocol : pyval) (w : world)
    : outcome unit * state :=
  __init__ file protocol (State no_attributes w).

(** ** The parameter functions *)

(** [randrange] *)
Definition randrange (name : pyval) (args : list pyval)
    (kwargs : gmap string pyval) : M pyval :=
  _param name "randrange" args kwargs.

(** [b - 1] *)
Definition py_sub1 (b : pyval) : outcome pyval :=
  match b with
  | PNum z => Ok (PNum (z - 1))
  | PNpNum z => Ok (PNpNum (z - 1))
  | PArray shape items => Ok (PArray shape ((λ x, x - 1) <$> items))
  | _ => Raise (TypeError "unsupported operand type(s) for -")
  end.

(** [randint] *)
Definition randint (name a b : pyval) (kwargs : gmap string pyval) : M pyval :=
  let! stop := lift (py_sub1 b) in
  let start := a in
  randrange name [start; stop] kwargs.

(** [choice], [uniform], [random] *)
Definition choice (name seq : pyval) (kwargs : gmap string pyval) : M pyval :=
  _param name "choice" [seq] kwargs.
Definition uniform (name a b : pyval) (kwargs : gmap string pyval) : M pyval :=
  _param name "uniform" [a; b] kwargs.
Definition random (name : pyval) (kwargs : gmap string pyval) : M pyval :=
  uniform name (PNum 0) (PNum 1) kwargs.

End Methods.

(** ** Vocabulary of the properties *)

Section Vocabulary.
Context `{Constants} `{Codec} `{Strategies}.

(** The two states of a run.  While parameters are being declared the
    current example has no reward and no timestamp. *)
Definition declaring (r : run_state) : bool :=
  negb (got_reward r) &&
  bool_decide (_current_example r !! "timestamp" = None).

Definition rewarded (s : state) : bool :=
  match the_run (self s) with
  | Some r => got_reward r
  | None => false
  end.

(** What [_load_from] takes from a file with the given contents: the
    parameter definitions and the examples it goes through.  Nothing is
    decoded from an empty file, and the definitions in memory stay. *)
Definition fresh_history (o : optimizer) (contents : string)
    : outcome (pyval * list pyval) :=
  if bool_decide (contents = "") then Ok (_old_params o, [])
  else
    match loads_of o contents with
    | Ok v =>
        match match_history v with
        | Some (params, examples) =>
            match py_iter examples with
            | Ok exs => Ok (params, exs)
            | Raise e => Raise e
            end
        | None => Raise (MatchError v)
        end
    | Raise e => Raise e
    end.

(** The events of a commit that goes through. *)
Definition commit_events (path raw : string) (t : Z) : list event :=
  [ EvLockRequest path "rb+"; EvLockAcquired path; EvTime t; EvRead path;
    EvClear path; EvWrite path raw; EvSync path; EvLockReleased path ].

(** The two data files a session of the given file name can have. *)
Definition json_file (f : string) : string :=
  (splitext (norm_path f)).1 +:+ data_file_ext +:+ ".json".
Definition pickle_file (f : string) : string :=
  (splitext (norm_path f)).1 +:+ data_file_ext +:+ ".pickle".

Definition same_session : relation state :=
  λ s s', _file (self s') = _file (self s) ∧
          _protocol (self s') = _protocol (self s).

(** The value that [_set_reward] hands to [denumpy_all], if it accepts the
    reward at all. *)
Definition reward_value (value : pyval) : option pyval :=
  match value with
  | PArray shape items =>
      if bool_decide (length shape = 1%nat)
      then Some (PTuple (ndarray_iter shape items)) else None
  | _ => Some value
  end.

(** The state in which [_set_reward] has stored the reward. *)
Definition store_reward (reward_type : string) (v : pyval) (r : run_state)
    (s : state) : state :=
  State (set_run (Some (set_current_example
                          (<[reward_type := denumpy_all v]> (_current_example r))
                          r)) (self s))
        (env s).

(** The current example holds [v] under the key [k]. *)
Definition stored (k : string) (v : pyval) (s : state) : Prop :=
  ∃ r, the_run (self s) = Some r ∧ _current_example r !! k = Some v.

(** The log has grown, and the first new event is the request for the
    exclusive lock on the data file. *)
Definition commit_requested (s s' : state) : Prop :=
  ∃ evs, log (env s') =
         log (env s) ++ EvLockRequest (data_file (self s)) "rb+" :: evs.

Definition log_grows : relation state :=
  λ s s', log (env s) `prefix_of` log (env s').

(** The operations on a session, and what happens elsewhere between two of
    them: other processes and the passing of time change the files, the
    locks and the clock. *)
Inductive call : Type :=
| Reload
| Run (alg : pyval)
| RunBackend (name : pyval) (args : list pyval) (options : gmap string pyval)
| Param (name : pyval) (func : string) (args : list pyval)
        (kwargs : gmap string pyval)
| Remember (info : pyval)
| Minimize (value : pyval)
| Maximize (value : pyval)
| TellExamples (examples : list pyval)
| GetData
| LoadData
| SaveData
| Elsewhere (fs : gmap string string) (lk : gset string) (t : Z).

Definition perform (c : call) : M unit :=
  match c with
  | Reload => reload
  | Run alg => run alg
  | RunBackend name args options => run_backend name args options
  | Param name func args kwargs => do! _param name func args kwargs in ret tt
  | Remember info => remember info
  | Minimize value => minimize value
  | Maximize value => maximize value
  | TellExamples examples => tell_examples examples
  | GetData => do! get_data in ret tt
  | LoadData => _load_data
  | SaveData => _save_data
  | Elsewhere fs lk t => on_env (λ w, World fs lk t (log w))
  end.

Definition perform_all (cs : list call) (s : state) : state :=
  foldl (λ s c, (perform c s).2) s cs.

(** A write of an aggregate whose examples are pairwise different. *)
Definition deduplicated_write (o : optimizer) (e : event) : Prop :=
  match e with
  | EvWrite _ raw =>
      ∃ params examples,
        NoDup examples ∧ dumps_of o (history params examples) = Ok raw
  | _ => True
  end.

Definition deduplicated (o : optimizer) (s : state) : Prop :=
  _protocol (self s) = _protocol o ∧
  NoDup (_examples (self s)) ∧
  Forall (deduplicated_write o) (log (env s)).

(** A relation between the state before and the state after that a
    computation respects, however it ends. *)
Definition stable {A} (R : relation state) (c : M A) : Prop :=
  ∀ s, R s (c s).2.

(** A property that, once true, stays true. *)
Definition carries (P : state → Prop) : relation state := λ s s', P s → P s'.

(** Relations of that kind. *)
Definition same_history : relation state :=
  λ s s', _old_params (self s') = _old_params (self s) ∧
          _examples (self s') = _examples (self s) ∧
          files (env s') = files (env s).

Definition quiet : relation state :=
  λ s s', _file (self s') = _file (self s) ∧
          _protocol (self s') = _protocol (self s) ∧
          locked (env s') = locked (env s) ∧
          now (env s') = now (env s).

Definition same_run : relation state :=
  λ s s', the_run (self s') = the_run (self s).

Definition same_clock_locks : relation state :=
  λ s s', locked (env s') = locked (env s) ∧ now (env s') = now (env s).

End Vocabulary.

(** ** Several processes on one file system *)

Section Processes.
Context `{Constants} `{Codec} `{Strategies}.

(** [_save_data] up to the entry of its [with] block: the assertion, and
    the acquisition of the lock. *)
Definition save_prologue : M string :=
  let! r := get_run "_current_example" in
  if bool_decide (is_Some (_current_example r !! "timestamp")) then
    raise (AssertionError "multiple _save_data calls on _current_example")
  else
  let! path := gets (λ s, data_file (self s)) in
  do! lock_acquire path "rb+" in
  ret path.

(** A process is a session.  While it commits, it holds the lock of its
    data file; [committing] is then the rank of its commit among all lock
    acquisitions of commits, and the index of the statement of [save_block]
    it runs next. *)
Record process : Type := Process {
  session : optimizer;
  committing : option (nat * nat)
}.

(** The processes share the world.  [acquired] lists, in the order of the
    lock acquisitions, the file of each commit and, once it is assigned, the
    timestamp of the committed example. *)
Record system : Type := System {
  procs : list process;
  shared : world;
  acquired : list (string * option Z)
}.

(** The timestamp in the current example. *)
Definition example_stamp (o : optimizer) : option Z :=
  match the_run o with
  | Some r =>
      match _current_example r !! "timestamp" with
      | Some (PNum t) => Some t
      | _ => None
      end
  | None => None
  end.

(** The calls that are not a commit. *)
Definition local_call (c : call) : bool :=
  match c with
  | Minimize _ | Maximize _ | SaveData | Elsewhere _ _ _ => false
  | _ => true
  end.

(** What can happen next: a process that is not committing changes its own
    object ([Think], which covers the declaration of parameters and the
    storing of a reward) or makes a call that is not a commit; a process
    enters [_save_data] ([Begin]), runs the next statement under the lock
    ([Statement]) or leaves the [with] block ([Finish]); time passes. *)
Inductive action : Type :=
| Think (i : nat) (o : optimizer)
| Call (i : nat) (c : call)
| Begin (i : nat)
| Statement (i : nat)
| Finish (i : nat)
| Tick (t : Z).

Definition set_now (t : Z) (w : world) : world :=
  World (files w) (locked w) t (log w).

Definition settle (i : nat) (s : state) (c : option (nat * nat))
    (acq : list (string * option Z)) (sys : system) : system :=
  System (<[i := Process (self s) c]> (procs sys)) (env s) acq.

Section Fire.
(** [clock_ok t t']: the clock can go from [t] to [t']. *)
Context (clock_ok : Z → Z → bool).

Definition fire (a : action) (sys : system) : option system :=
  match a with
  | Think i o =>
      match procs sys !! i with
      | Some (Process _ None) =>
          Some (settle i (State o (shared sys)) None (acquired sys) sys)
      | _ => None
      end
  | Call i c =>
      match procs sys !! i with
      | Some (Process o None) =>
          if local_call c then
            Some (settle i (perform c (State o (shared sys))).2 None
                    (acquired sys) sys)
          else None
      | _ => None
      end
  | Begin i =>
      match procs sys !! i with
      | Some (Process o None) =>
          match save_prologue (State o (shared sys)) with
          | (Ok path, s') =>
              Some (settle i s' (Some (length (acquired sys), 0%nat))
                      (acquired sys ++ [(path, None)]) sys)
          | (Raise _, s') => Some (settle i s' None (acquired sys) sys)
          end
      | _ => None
      end
  | Statement i =>
      match procs sys !! i with
      | Some (Process o (Some (a, k))) =>
          match save_block (data_file o) !! k with
          | Some c =>
              match c (State o (shared sys)) with
              | (Ok _, s') =>
                  Some (settle i s' (Some (a, S k))
                          (match k with
                           | O => <[a := (data_file o, example_stamp (self s'))]>
                                    (acquired sys)
                           | _ => acquired sys
                           end) sys)
              | (Raise _, s') =>
                  Some (settle i (release (data_file o) s') None
                          (acquired sys) sys)
              end
          | None => None
          end
      | _ => None
      end
  | Finish i =>
      match procs sys !! i with
      | Some (Process o (Some (a, k))) =>
          if bool_decide (k = length (save_block (data_file o))) then
            Some (settle i (release (data_file o) (State o (shared sys))) None
                    (acquired sys) sys)
          else None
      | _ => None
      end
  | Tick t =>
      if clock_ok (now (shared sys)) t then
        Some (System (procs sys) (set_now t (shared sys)) (acquired sys))
      else None
  end.

Definition fire_all (acts : list action) (sys : system) : option system :=
  foldl (λ o a, o ≫= fire a) (Some sys) acts.

End Fire.

(** At the start no process is committing and no lock is held. *)
Definition initial (sys : system) : bool :=
  forallb (λ p, bool_decide (committing p = None)) (procs sys) &&
  bool_decide (locked (shared sys) = ∅) &&
  bool_decide (acquired sys = []).

(** The timestamps of the commits on a file do not decrease along the order
    of the lock acquisitions. *)
Definition stamps_ordered (acq : list (string * option Z)) : Prop :=
  ∀ (path : string) (a b : nat) (ta tb : Z),
    (a < b)%nat →
    acq !! a = Some (path, Some ta) →
    acq !! b = Some (path, Some tb) →
    (ta ≤ tb)%Z.

(** A process that commits holds the lock of its data file, and the
    timestamp of its example is there as soon as the first statement under
    the lock has run, not before. *)
Definition stamped_under_lock (sys : system) : Prop :=
  ∀ i p a k,
    procs sys !! i = Some p →
    committing p = Some (a, k) →
    data_file (session p) ∈ locked (shared sys) ∧
    acquired sys !! a =
      Some (data_file (session p),
            match k with O => None | _ => example_stamp (session p) end) ∧
    (k ≠ 0%nat → is_Some (example_stamp (session p))).

(** The invariant of the system: a timestamp is never later than the
    clock; the timestamps are ordered; a process that commits holds its
    lock, its entry in [acquired] is the one of its file that came last as
    long as it has no timestamp; two processes that commit do so on
    different files. *)
Definition proc_ok (w : world) (acq : list (string * option Z)) (p : process)
    : Prop :=
  match committing p with
  | None => True
  | Some (a, k) =>
      data_file (session p) ∈ locked w ∧
      acq !! a = Some (data_file (session p),
                       match k with O => None | _ => example_stamp (session p) end) ∧
      (k ≠ 0%nat → is_Some (example_stamp (session p))) ∧
      (k = 0%nat → ∀ b q o, (a < b)%nat → acq !! b = Some (q, o) →
                            q ≠ data_file (session p))
  end.

Definition exclusive (ps : list process) : Prop :=
  ∀ i j p q,
    i ≠ j → ps !! i = Some p → ps !! j = Some q →
    is_Some (committing p) → is_Some (committing q) →
    data_file (session p) ≠ data_file (session q).

Definition sys_inv (sys : system) : Prop :=
  (∀ a q t, acquired sys !! a = Some (q, Some t) → t ≤ now (shared sys)) ∧
  stamps_ordered (acquired sys) ∧
  (∀ i p, procs sys !! i = Some p → proc_ok (shared sys) (acquired sys) p) ∧
  exclusive (procs sys).

(** The steps of one whole commit of process [i]. *)
Definition commit_script (i : nat) : list action :=
  Begin i :: replicate (length (save_block "")) (Statement i) ++ [Finish i].

End Processes.

(** ** More vocabulary *)

Section Coverage.
Context `{Constants} `{Codec} `{Strategies}.

(** The calls that are methods of the object. *)
Definition is_method (c : call) : bool :=
  match c with
  | Elsewhere _ _ _ => false
  | _ => true
  end.

(** The methods that have no business with files, locks or the clock. *)
Definition silent_call (c : call) : bool :=
  match c with
  | Run _ | RunBackend _ _ _ | Param _ _ _ _ | Remember _
  | TellExamples _ | GetData => true
  | _ => false
  end.

(** Every call but a direct call of the private [_save_data]. *)
Definition not_save (c : call) : bool :=
  match c with
  | SaveData => false
  | _ => true
  end.

Definition same_env : relation state := λ s s', env s' = env s.

(** The names that have a value in the current example are the names
    that have a definition in [_new_params]. *)
Definition values_match_params (o : option run_state) : Prop :=
  match o with
  | Some r =>
      ∃ values, _current_example r !! "values" = Some (PDict values) ∧
                dom values = dom (_new_params r)
  | None => True
  end.

(** A current example with a timestamp has a reward. *)
Definition stamped_is_rewarded (o : option run_state) : Prop :=
  match o with
  | Some r =>
      is_Some (_current_example r !! "timestamp") → got_reward r = true
  | None => True
  end.

(** The list of examples has only grown. *)
Definition examples_grow : relation state :=
  λ s s', _examples (self s) `prefix_of` _examples (self s').

(** Every call but [reload], the one that forgets. *)
Definition not_reload (c : call) : bool :=
  match c with
  | Reload => false
  | _ => true
  end.

(** No file has changed. *)
Definition same_files : relation state :=
  λ s s', files (env s') = files (env s).

(** The names of the parameters declared in the current run. *)
Definition declared_names (s : state) : gset string :=
  match the_run (self s) with
  | Some r => dom (_new_params r)
  | None => ∅
  end.

End Coverage.

(** ** [sample] and [shuffle] *)

(** Indexing a list can raise [IndexError], which no method above does. *)
Inductive xexn : Type :=
| Exn (e : exn)
| IndexError (msg : string).

Inductive xoutcome (A : Type) : Type :=
| XOk (a : A)
| XRaise (e : xexn).
Arguments XOk {A} a.
Arguments XRaise {A} e.

Definition of_outcome {A} (o : outcome A) : xoutcome A :=
  match o with
  | Ok a => XOk a
  | Raise e => XRaise (Exn e)
  end.

(** What [sample] takes from outside the class: [modify_kwargs] of
    [bbopt.params.param_processor], which hands values of the keywords to
    the function it is given, and the indexing of iterables of the Coconut
    header.  The function is applied while [modify_kwargs] runs. *)
Class ParamProcessor : Type := {
  modify_kwargs : (pyval → xoutcome pyval) → gmap string pyval →
                  xoutcome (gmap string pyval);
  igetitem : pyval → nat → xoutcome pyval
}.

Section Sampling.
Context `{Constants} `{Codec} `{Strategies} `{ParamProcessor}.

(** [len(x)] *)
Definition py_len (v : pyval) : outcome Z :=
  match v with
  | PList l | PTuple l => Ok (Z.of_nat (length l))
  | PDict d => Ok (Z.of_nat (size d))
  | PStr s => Ok (Z.of_nat (String.length s))
  | PArray (n :: _) _ => Ok (Z.of_nat n)
  | PArray [] _ => Raise (TypeError "len() of unsized object")
  | _ => Raise (TypeError "object has no len()")
  end.

(** What [list.pop] takes as an index: an integer, or a numpy value that
    stands for one. *)
Definition py_index (v : pyval) : option Z :=
  match v with
  | PNum z | PNpNum z => Some z
  | PArray [] items => Some (default 0 (head items))
  | _ => None
  end.

(** [l.pop(ind)]: a negative index counts from the end. *)
Definition list_pop (l : list pyval) (ind : pyval)
    : xoutcome (pyval * list pyval) :=
  match py_index ind with
  | Some z =>
      let n := Z.of_nat (length l) in
      let i := if z <? 0 then z + n else z in
      if (0 <=? i) && (i <? n) then
        match l !! Z.to_nat i with
        | Some x => XOk (x, delete (Z.to_nat i) l)
        | None => XRaise (IndexError "pop index out of range")
        end
      else XRaise (IndexError "pop index out of range")
  | None =>
      XRaise (Exn (TypeError "object cannot be interpreted as an integer"))
  end.

(** The name of a cell: the name, and the index in brackets. *)
Definition cell_name (name : string) (i : nat) : string :=
  name +:+ "[" +:+ pretty i +:+ "]".

(** The function that [sample] hands to [modify_kwargs]: the position in
    the population of the element at index [i], or 0 if it is not there. *)
Definition index_or_zero (sampling_population : list pyval) (i : nat)
    (val : pyval) : xoutcome pyval :=
  match igetitem val i with
  | XOk elem =>
      XOk (PNum (Z.of_nat
             (default 0%nat
                (fst <$> list_find (λ x, x = elem) sampling_population))))
  | XRaise e => XRaise e
  end.

(** The loop of [sample], from index [i] on, with [todo] rounds to go. *)
Fixpoint sample_loop (name : string) (kwargs : gmap string pyval)
    (i todo : nat) (sampling_population sample : list pyval) (s : state)
    : xoutcome (list pyval) * state :=
  match todo with
  | O => (XOk sample, s)
  | S todo' =>
      if bool_decide (length sampling_population ≤ 1)%nat then
        match head sampling_population with
        | Some x =>
            sample_loop name kwargs (S i) todo' sampling_population
              (sample ++ [x]) s
        | None => (XRaise (IndexError "list index out of range"), s)
        end
      else
        match modify_kwargs (index_or_zero sampling_population i) kwargs with
        | XOk proc_kwargs =>
            match randrange (PStr (cell_name name i))
                    [PNum (Z.of_nat (length sampling_population))]
                    proc_kwargs s with
            | (Ok ind, s') =>
                match list_pop sampling_population ind with
                | XOk (x, rest) =>
                    sample_loop name kwargs (S i) todo' rest (sample ++ [x]) s'
                | XRaise e => (XRaise e, s')
                end
            | (Raise e, s') => (XRaise (Exn e), s')
            end
        | XRaise e => (XRaise e, s)
        end
  end.

(** [sample], for an integer [k]: [range(k)] is empty when [k] is not
    positive. *)
Definition sample (name population : pyval) (k : Z)
    (kwargs : gmap string pyval) (s : state)
    : xoutcome (list pyval) * state :=
  match name with
  | PStr n =>
      match py_iter population with
      | Ok sampling_population =>
          sample_loop n kwargs 0 (Z.to_nat k) sampling_population [] s
      | Raise e => (XRaise (Exn e), s)
      end
  | _ => (XRaise (Exn (TypeError "name must be string")), s)
  end.

(** [shuffle]: [len(x)] is evaluated before [sample] is entered. *)
Definition shuffle (name x : pyval) (kwargs : gmap string pyval) (s : state)
    : xoutcome (list pyval) * state :=
  match py_len x with
  | Ok k => sample name x k kwargs s
  | Raise e => (XRaise (Exn e), s)
  end.

End Sampling.

(** ** A concrete platform

    Small stand-ins for the imported modules, on which the methods can be
    run: a serving and a "first" strategy (which draws the first argument of
    the distribution), and a codec that knows a handful of files. *)
Module Demo.

Fixpoint split_ext (rev_path ext : list ascii) : option (list ascii * list ascii) :=
  match rev_path with
  | [] => None
  | c :: rest =>
      if bool_decide (c = "."%char) then
        match rest with
        | [] => None
        | d :: _ => if bool_decide (d = "/"%char) then None
                    else Some (rest, c :: ext)
        end
      else if bool_decide (c = "/"%char) then None
      else split_ext rest (c :: ext)
  end.

Definition demo_splitext (p : string) : string * string :=
  match split_ext (reverse (String.list_ascii_of_string p)) [] with
  | Some (root, ext) =>
      (String.string_of_list_ascii (reverse root), String.string_of_list_ascii ext)
  | None => (p, "")
  end.

#[export] Instance constants : Constants := {|
  data_file_ext := ".bbopt";
  default_protocol := PNum 2;
  norm_path := λ p, p;
  splitext := demo_splitext
|}.

Definition x_def : pyval := PTuple [PStr "uniform"; PTuple [PNum 0; PNum 1]; PDict ∅].
Definition y_def : pyval := PTuple [PStr "randrange"; PTuple [PNum 5; PNum 9]; PDict ∅].
Definition x_old : pyval := PTuple [PStr "uniform"; PTuple [PNum 0; PNum 7]; PDict ∅].

Definition ex1 : pyval :=
  PDict (<["values" := PDict {[ "x" := PNum 3 ]}]>
         (<["loss" := PNum 1]> {[ "timestamp" := PNum 100 ]})).

(** The example of a run that drew 0 for "x" and 5 for "y" and lost 5. *)
Definition ex_at (t : Z) : pyval :=
  PDict (<["values" := PDict (<["x" := PNum 0]> {[ "y" := PNum 5 ]})]>
         (<["loss" := PNum 5]> {[ "timestamp" := PNum t ]})).

Definition xy_defs : pyval := PDict (<["x" := x_def]> {[ "y" := y_def ]}).

Definition book : list (string * pyval) :=
  [ ("H0", history (PDict ∅) []);
    ("H1", history (PDict {[ "x" := x_old ]}) [ex1]);
    ("C1", history xy_defs [ex_at 100]);
    ("C2", history xy_defs [ex_at 101; ex_at 100]);
    ("L", PList []);
    ("P", PDict {[ "params" := PDict ∅ ]});
    ("T", PDict (<["params" := PDict ∅]>
                 (<["examples" := PList []]> {[ "version" := PNum 1 ]}))) ].

Definition book_loads (raw : string) : outcome pyval :=
  match list_find (λ e, e.1 = raw) book with
  | Some (_, (_, v)) => Ok v
  | None => Raise (CodecError "cannot decode")
  end.

Definition book_dumps (v : pyval) : outcome string :=
  match list_find (λ e, e.2 = v) book with
  | Some (_, (raw, _)) => Ok raw
  | None => Ok "D"
  end.

#[export] Instance codec : Codec := {|
  json_loads := book_loads;
  json_dumps := book_dumps;
  json_serialize := λ v, Ok (denumpy_all v);
  pickle_loads := book_loads;
  pickle_dumps := λ v _, book_dumps v
|}.

#[export] Instance strategies : Strategies := {|
  backend_t := pyval;
  alg_registry := λ alg,
    match alg with
    | PNone => Some (PNone, ∅)
    | PStr "first" => Some (PStr "first", ∅)
    | _ => None
    end;
  init_backend := λ name _ _ _ _,
    match name with
    | PNone | PStr "first" => Ok name
    | _ => Raise (KeyError name)
    end;
  backend_param := λ b _ _ args _, (Ok (default (PNum 0) (head args)), b);
  is_serving_instance := λ b, bool_decide (b = PNone);
  standardize_args := λ _ args, Ok args;
  standardize_kwargs := λ kwargs, Ok kwargs
|}.

Definition empty_world : world := World ∅ ∅ 100 [].

Definition after {A} (c : M A) (r : outcome unit * state) : state := (c r.2).2.

(** A session on a fresh world, with the "first" strategy selected. *)
Definition fresh : state :=
  after (run (PStr "first")) (BlackBoxOptimizer (PStr "opt.py") PNone empty_world).

(** The same session after [uniform("x", 0, 1)] and [randrange("y", 5, 9)]. *)
Definition declare_xy (s : state) : state :=
  after (randrange (PStr "y") [PNum 5; PNum 9] ∅)
    (Ok tt, after (uniform (PStr "x") (PNum 0) (PNum 1) ∅) (Ok tt, s)).

Definition declared : state := declare_xy fresh.

Definition run_of (s : state) : run_state :=
  default (RunState PNone ∅ ∅) (the_run (self s)).

(** ... and after [minimize(5)], which commits. *)
Definition committed : state := after (minimize (PNum 5)) (Ok tt, declared).

(** A session on a world whose data file holds a history already: the
    definition of "x" of an earlier run, and one example. *)
Definition used_world : world :=
  World {[ "opt.bbopt.pickle" := "H1" ]} ∅ 200 [].

Definition resumed : state :=
  declare_xy (after (run (PStr "first"))
                (BlackBoxOptimizer (PStr "opt.py") PNone used_world)).

(** The reward is stored, the commit is about to begin. *)
Definition about_to_commit : state :=
  store_reward "loss" (PNum 5) (run_of resumed) resumed.

(** The fresh session, but with a list in its data file. *)
Definition misled : state :=
  State (self fresh) (put_file (data_file (self fresh)) "L" (env fresh)).

(** Two processes on the data file of the fresh session, each with a reward
    stored; one commits, time passes, the other commits. *)
Definition two_processes : system :=
  let o := self (store_reward "loss" (PNum 5) (run_of declared) declared) in
  System [Process o None; Process o None] (env declared) [].

Definition two_commits : list action :=
  commit_script 0 ++ [Tick 101] ++ commit_script 1.

Definition after_two_commits : system :=
  default two_processes (fire_all Z.leb two_commits two_processes).

(** A codec that refuses to encode what is not in the book. *)
Definition strict_dumps (v : pyval) : outcome string :=
  match list_find (λ e, e.2 = v) book with
  | Some (_, (raw, _)) => Ok raw
  | None => Raise (CodecError "cannot encode")
  end.

Definition strict_codec : Codec := {|
  json_loads := book_loads;
  json_dumps := strict_dumps;
  json_serialize := λ v, Ok (denumpy_all v);
  pickle_loads := book_loads;
  pickle_dumps := λ v _, strict_dumps v
|}.

(** The session that has declared "x" and "y", with its reward stored. *)
Definition ready : state :=
  store_reward "loss" (PNum 5) (run_of declared) declared.

(** The fresh session with a reward stored: it has declared nothing, and
    its example is in no book. *)
Definition unprepared : state :=
  store_reward "loss" (PNum 5) (run_of fresh) fresh.

(** The session that has declared its parameters, while another process
    holds the lock of its data file. *)
Definition contended : state :=
  State (self declared) (set_locked {[ "opt.bbopt.pickle" ]} (env declared)).

(** A processor that hands the keyword "guess" to the function, and the
    indexing of lists and tuples. *)
#[export] Instance processor : ParamProcessor := {|
  modify_kwargs := λ f kwargs,
    match kwargs !! "guess" with
    | Some v =>
        match f v with
        | XOk v' => XOk (<["guess" := v']> kwargs)
        | XRaise e => XRaise e
        end
    | None => XOk kwargs
    end;
  igetitem := λ val i,
    match val with
    | PList l | PTuple l =>
        match l !! i with
        | Some x => XOk x
        | None => XRaise (IndexError "index out of range")
        end
    | _ => XRaise (Exn (TypeError "object is not subscriptable"))
    end
|}.

(** A platform whose only strategy draws what the keyword "guess" says,
    and 0 without a guess. *)
Module Drawing.

#[export] Instance draw_guess : Strategies := {|
  backend_t := unit;
  alg_registry := λ _, Some (PNone, ∅);
  init_backend := λ _ _ _ _ _, Ok tt;
  backend_param := λ b _ _ _ kwargs, (Ok (default (PNum 0) (kwargs !! "guess")), b);
  is_serving_instance := λ _, false;
  standardize_args := λ _ args, Ok args;
  standardize_kwargs := λ kwargs, Ok kwargs
|}.

Definition drawing : @state draw_guess :=
  (BlackBoxOptimizer (PStr "opt.py") PNone empty_world).2.

Definition one_two_three : pyval := PList [PNum 1; PNum 2; PNum 3].

Definition guess_312 : gmap string pyval :=
  {[ "guess" := PList [PNum 3; PNum 1; PNum 2] ]}.

End Drawing.

End Demo.

(** * Properties *)

Section Properties.
Context `{Constants} `{Codec} `{Strategies}.

Ltac munfold :=
  unfold put_run, get_run in *; unfold on_self, on_env in *;
  unfold bind, ret, raise, lift, gets, modify, finally in *.

(** ** Running a method that starts with the [_got_reward] test *)

Lemma _got_reward_run s r :
  the_run (self s) = Some r → _got_reward s = (Ok (got_reward r), s).
Proof. intros Hr. unfold _got_reward. munfold. simpl. by rewrite Hr. Qed.

Lemma _got_reward_no_run s :
  the_run (self s) = None →
  _got_reward s = (Raise (AttributeError "_current_example"), s).
Proof. intros Hr. unfold _got_reward. munfold. simpl. by rewrite Hr. Qed.

Lemma bind_eq {A B} (c : M A) (k : A → M B) s a s' :
  c s = (Ok a, s') → bind c k s = k a s'.
Proof. intros Hc. unfold bind. by rewrite Hc. Qed.

Lemma bind_assoc {A B C} (c : M A) (k1 : A → M B) (k2 : B → M C) s :
  bind (bind c k1) k2 s = bind c (λ a, bind (k1 a) k2) s.
Proof. unfold bind. by destruct (c s) as [[a|e] s']. Qed.

Lemma bind_gets {A B} (f : state → A) (k : A → M B) s :
  bind (gets f) k s = k (f s) s.
Proof. reflexivity. Qed.

Lemma bind_raise {A B} (c : M A) (k : A → M B) s e s' :
  c s = (Raise e, s') → bind c k s = (Raise e, s').
Proof. intros Hc. unfold bind. by rewrite Hc. Qed.

(** ** Relations that every step respects *)

Section Stable.
Context (R : relation state) `{!PreOrder R}.

Lemma stable_ret {A} (a : A) : stable R (ret a).
Proof. intros s. reflexivity. Qed.

Lemma stable_raise {A} e : stable R (raise (A := A) e).
Proof. intros s. reflexivity. Qed.

Lemma stable_lift {A} (o : outcome A) : stable R (lift o).
Proof. intros s. reflexivity. Qed.

Lemma stable_gets {A} (f : state → A) : stable R (gets f).
Proof. intros s. reflexivity. Qed.

Lemma stable_modify f : (∀ s, R s (f s)) → stable R (modify f).
Proof. intros Hf s. apply Hf. Qed.

Lemma stable_bind {A B} (c : M A) (k : A → M B) :
  stable R c → (∀ a, stable R (k a)) → stable R (bind c k).
Proof.
  intros Hc Hk s. unfold bind. specialize (Hc s).
  destruct (c s) as [[a|e] s']; simpl in *; [|done].
  etransitivity; [exact Hc|apply Hk].
Qed.

Lemma stable_finally {A} (c : M A) cleanup :
  stable R c → (∀ s, R s (cleanup s)) → stable R (finally c cleanup).
Proof.
  intros Hc Hf s. unfold finally. specialize (Hc s).
  destruct (c s) as [o s']; simpl in *. etransitivity; [exact Hc|apply Hf].
Qed.

Lemma stable_block cs : Forall (stable R) cs → stable R (block cs).
Proof.
  induction 1 as [|c cs Hc _ IH]; [apply stable_ret|].
  apply stable_bind; [done|by intros _].
Qed.

End Stable.

#[local] Instance carries_preorder (P : state → Prop) : PreOrder (carries P).
Proof.
  split; unfold carries; [by intros ? ?|]. intros x y z Hxy Hyz Hx. auto.
Qed.

Ltac stable_step :=
  lazymatch goal with
  | |- stable _ (bind _ _) => refine (stable_bind _ _ _ _ _); [|intros ?]
  | |- stable _ (ret _) => refine (stable_ret _ _)
  | |- stable _ (raise _) => refine (stable_raise _ _)
  | |- stable _ (lift _) => refine (stable_lift _ _)
  | |- stable _ (gets _) => refine (stable_gets _ _)
  | |- stable _ (finally _ _) => refine (stable_finally _ _ _ _ _); [|intros ?]
  | |- stable _ (modify _) => refine (stable_modify _ _ _); intros ?
  | |- stable _ (if ?b then _ else _) => destruct b
  | |- stable _ (match ?x with _ => _ end) => destruct x
  | |- stable _ (let (_, _) := ?x in _) => destruct x
  end.

(** A relation is respected by every method as soon as it is respected by
    the updates of the object and of the world. *)
Ltac stable_go :=
  repeat first
    [ stable_step
    | progress unfold put_run, get_run, on_self, on_env ].

(** ** The state machine of a run *)

(** C3: within a run, once the current example has a loss or a gain,
    declaring a parameter, setting a reward again and [remember] all raise
    [ValueError], at once and without any effect. *)
Theorem usage_error_after_reward (s : state) :
  rewarded s = true →
  (∀ name func args kwargs,
     _param name func args kwargs s =
     (Raise (ValueError "all parameter definitions must come before maximize/minimize"), s)) ∧
  (∀ reward_type value,
     _set_reward reward_type value s =
     (Raise (ValueError "only one call to maximize or minimize is allowed"), s)) ∧
  (∀ info,
     remember info s =
     (Raise (ValueError "remember calls must come before maximize/minimize"), s)).
Proof.
  unfold rewarded. destruct (the_run (self s)) as [r|] eqn:Hr; [|done].
  intros Hgot. repeat split; intros.
  - unfold _param. rewrite (bind_eq _ _ _ _ _ (_got_reward_run s r Hr)).
    by rewrite Hgot.
  - unfold _set_reward. rewrite (bind_eq _ _ _ _ _ (_got_reward_run s r Hr)).
    by rewrite Hgot.
  - unfold remember. rewrite (bind_eq _ _ _ _ _ (_got_reward_run s r Hr)).
    by rewrite Hgot.
Qed.

(** ** Declaring a parameter *)

(** C7, as the code has it: declaring a parameter fails, and changes
    nothing, if the name is not a string or if a parameter of that name was
    declared in the current run.  (Nothing tests whether the name is empty.) *)
Theorem param_name_rejected (s : state) (name : pyval) (func : string)
    (args : list pyval) (kwargs : gmap string pyval) :
  is_Str name = false ∨
  (∃ n r, name = PStr n ∧ the_run (self s) = Some r ∧ n ∈ dom (_new_params r)) →
  is_Raise (_param name func args kwargs s).1 = true ∧
  (_param name func args kwargs s).2 = s.
Proof.
  intros Hname. unfold _param.
  destruct (the_run (self s)) as [r|] eqn:Hr.
  - rewrite (bind_eq _ _ _ _ _ (_got_reward_run s r Hr)).
    destruct (got_reward r); [done|].
    destruct Hname as [Hname|(n & r' & -> & Hr' & Hn)].
    + by destruct name.
    + assert (r' = r) as -> by congruence.
      erewrite bind_eq by (munfold; simpl; rewrite Hr; reflexivity).
      by rewrite bool_decide_eq_true_2.
  - by rewrite (bind_raise _ _ _ _ _ (_got_reward_no_run s Hr)).
Qed.

(** ** [randint] *)

(** C10: [randint(name, a, b)] is [randrange(name, a, b - 1)]; the stop that
    is handed over is not the [b + 1] of an inclusive upper bound. *)
Theorem randint_randrange (name a : pyval) (b : Z) (kwargs : gmap string pyval) :
  randint name a (PNum b) kwargs = randrange name [a; PNum (b - 1)] kwargs ∧
  [a; PNum (b - 1)] ≠ [a; PNum (b + 1)].
Proof.
  split; [reflexivity|]. intros Heq. injection Heq as Heq. lia.
Qed.

(** ** The commit *)

Lemma dumps_of_protocol o o' v :
  _protocol o = _protocol o' → dumps_of o v = dumps_of o' v.
Proof. unfold dumps_of, _use_json. by intros ->. Qed.

Lemma loads_of_protocol o o' raw :
  _protocol o = _protocol o' → loads_of o raw = loads_of o' raw.
Proof. unfold loads_of, _use_json. by intros ->. Qed.

Lemma fresh_history_empty o : fresh_history o "" = Ok (_old_params o, []).
Proof. reflexivity. Qed.

Lemma fresh_history_decoded o contents params exs :
  contents ≠ "" →
  loads_of o contents = Ok (history params exs) →
  fresh_history o contents = Ok (params, exs).
Proof.
  intros Hne Hv. unfold fresh_history.
  rewrite bool_decide_eq_false_2 by done. by rewrite Hv.
Qed.

(** *** What each statement of the commit does *)

Lemma acquire_release (path : string) (held : gset string) :
  path ∉ held → ({[path]} ∪ held) ∖ {[path]} = held.
Proof.
  intros Hfree. apply set_eq. intros x.
  rewrite elem_of_difference, elem_of_union, elem_of_singleton.
  split; [tauto|]. intros Hx. split; [tauto|]. by intros ->.
Qed.

Lemma Lock_acquired {A} path mode (body : M A) s :
  is_Some (files (env s) !! path) →
  path ∉ locked (env s) →
  Lock path mode body s =
  let (o, s') :=
    body (State (self s)
            (emit (EvLockAcquired path)
               (set_locked ({[path]} ∪ locked (env s))
                  (emit (EvLockRequest path mode) (env s))))) in
  (o, release path s').
Proof.
  intros Hthere Hfree. unfold Lock, lock_acquire, os_path_exists. munfold. simpl.
  rewrite bool_decide_eq_true_2 by done. simpl.
  by rewrite bool_decide_eq_false_2 by done.
Qed.

Lemma Lock_timeout {A} path mode (body : M A) s :
  is_Some (files (env s) !! path) →
  path ∈ locked (env s) →
  Lock path mode body s =
  (Raise (LockException path),
   State (self s) (emit (EvLockRequest path mode) (env s))).
Proof.
  intros Hthere Hheld. unfold Lock, lock_acquire, os_path_exists. munfold. simpl.
  rewrite bool_decide_eq_true_2 by done. simpl.
  by rewrite bool_decide_eq_true_2 by done.
Qed.

Lemma Lock_no_file {A} path mode (body : M A) s :
  files (env s) !! path = None →
  Lock path mode body s =
  (Raise (FileNotFoundError path),
   State (self s) (emit (EvLockRequest path mode) (env s))).
Proof.
  intros Hnone. unfold Lock, lock_acquire, os_path_exists. munfold. simpl.
  rewrite bool_decide_eq_false_2; [done|]. rewrite Hnone. by intros [? ?].
Qed.

Lemma block_cons c cs s :
  block (c :: cs) s = bind c (λ _, block cs) s.
Proof. reflexivity. Qed.

Lemma stamp_current_example_run s r :
  the_run (self s) = Some r →
  stamp_current_example s =
  (Ok tt,
   State (set_run (Some (set_current_example
                           (<["timestamp" := PNum (now (env s))]>
                              (_current_example r)) r)) (self s))
         (emit (EvTime (now (env s))) (env s))).
Proof.
  intros Hr. unfold stamp_current_example, time_time. munfold. simpl.
  by rewrite Hr.
Qed.

Lemma tell_current_example_run s r :
  the_run (self s) = Some r →
  tell_current_example s =
  (Ok tt,
   State (set_examples (merge_examples (_examples (self s))
                          [PDict (_current_example r)]) (self s))
         (env s)).
Proof.
  intros Hr. unfold tell_current_example, tell_examples. munfold. simpl.
  by rewrite Hr.
Qed.

Lemma merge_examples_nil own : merge_examples own [] = own.
Proof. reflexivity. Qed.

Lemma _load_from_run df s contents params exs :
  files (env s) !! df = Some contents →
  fresh_history (self s) contents = Ok (params, exs) →
  _load_from df s =
  (Ok tt,
   State (set_examples (merge_examples (_examples (self s)) exs)
            (set_old_params params (self s)))
         (emit (EvRead df) (env s))).
Proof.
  intros Hfile Hfresh. unfold _load_from, df_read, _loads, tell_examples.
  unfold fresh_history in Hfresh. munfold. simpl. rewrite Hfile. simpl.
  case_bool_decide.
  - injection Hfresh as <- <-. by destruct s as [[] ?].
  - destruct (loads_of (self s) contents) as [v|] eqn:Hv; [|done].
    destruct (match_history v) as [[params' examples]|] eqn:Hm; [|done].
    destruct (py_iter examples) as [exs'|] eqn:Hit; [|done].
    injection Hfresh as <- <-. cbv beta. simpl. rewrite Hv, Hm. simpl.
    by rewrite Hit.
Qed.

Lemma write_data_run df s r d raw :
  _old_params (self s) = PDict d →
  the_run (self s) = Some r →
  dumps_of (self s)
    (history (PDict (_new_params r ∪ d)) (_examples (self s))) = Ok raw →
  write_data df s =
  (Ok tt,
   State (set_old_params (PDict (_new_params r ∪ d)) (self s))
         (emit (EvWrite df raw)
            (put_file df (default "" (files (env s) !! df) +:+ raw) (env s)))).
Proof.
  intros Hold Hr Hdumps. unfold write_data, get_data, _dumps, df_write.
  munfold. simpl. rewrite Hold. simpl. rewrite Hr. simpl.
  rewrite (dumps_of_protocol _ (self s)) by done. by rewrite Hdumps.
Qed.


(** ** Construction *)

#[local] Instance same_session_preorder : PreOrder same_session.
Proof.
  split; [by intros ?|]. intros x y z (? & ?) (? & ?). split; congruence.
Qed.

Lemma same_session_reload : stable same_session reload.
Proof.
  unfold reload, _load_data, ensure_file, Lock, lock_acquire, os_path_exists,
    _load_from,
    df_read, _loads, tell_examples, run, run_backend.
  stable_go; by split.
Qed.

Lemma constructed_session f protocol w :
  let o := self (BlackBoxOptimizer (PStr f) protocol w).2 in
  _file o = norm_path f ∧
  _protocol o =
    match protocol with
    | PNone => if bool_decide (is_Some (files w !! json_file f))
               then PStr "json" else default_protocol
    | _ => protocol
    end.
Proof.
  unfold BlackBoxOptimizer, __init__. erewrite bind_eq by reflexivity.
  set (o1 := set_file (norm_path f) no_attributes).
  assert (∃ o2,
    match protocol with
    | PNone =>
        do! on_self (set_protocol (PStr "json")) in
        let! path := gets (λ s, data_file (self s)) in
        let! there := os_path_exists path in
        if negb there then on_self (set_protocol default_protocol) else ret tt
    | _ => on_self (set_protocol protocol)
    end (State o1 w) = (Ok tt, State o2 w) ∧
    _file o2 = norm_path f ∧
    _protocol o2 =
      match protocol with
      | PNone => if bool_decide (is_Some (files w !! json_file f))
                 then PStr "json" else default_protocol
      | _ => protocol
      end) as (o2 & Hsel & Hf & Hp).
  { destruct protocol; try (eexists; split; [reflexivity|done]).
    unfold os_path_exists. munfold. simpl.
    change (data_file (set_protocol (PStr "json") o1)) with (json_file f).
    case_bool_decide; simpl; (eexists; split; [reflexivity|done]). }
  erewrite bind_eq by exact Hsel.
  destruct (same_session_reload (State o2 w)) as [-> ->]. done.
Qed.

(** C9: without an explicit protocol the session takes JSON if the JSON data
    file exists and the default protocol otherwise, so that it takes the
    binary format when there is no data file and the format of the data file
    when there is one; an explicit protocol is taken as it is.  The default
    protocol is a constant of [bbopt.constants]; the specification says it is
    the binary format. *)
Theorem protocol_selection (f : string) (protocol : pyval) (w : world) :
  default_protocol ≠ PStr "json" →
  let o := self (BlackBoxOptimizer (PStr f) protocol w).2 in
  (protocol ≠ PNone → _protocol o = protocol) ∧
  (protocol = PNone →
   files w !! json_file f = None → files w !! pickle_file f = None →
   _protocol o = default_protocol ∧ _use_json o = false) ∧
  (protocol = PNone →
   is_Some (files w !! json_file f) →
   _protocol o = PStr "json" ∧ _use_json o = true ∧
   data_file o = json_file f) ∧
  (protocol = PNone →
   files w !! json_file f = None → is_Some (files w !! pickle_file f) →
   _protocol o = default_protocol ∧ _use_json o = false ∧
   data_file o = pickle_file f).
Proof.
  intros Hdefault o. destruct (constructed_session f protocol w) as [Hf Hp].
  fold o in Hf, Hp.
  assert (Hbinary : bool_decide (default_protocol = PStr "json") = false)
    by by apply bool_decide_eq_false_2.
  unfold data_file, _use_json. rewrite Hf, Hp. clear Hf Hp.
  split; [by destruct protocol|].
  split; [|split]; intros ->.
  - intros Hjson _. rewrite Hjson.
    rewrite bool_decide_eq_false_2 by (by intros [? ?]). done.
  - intros Hjson. rewrite (bool_decide_eq_true_2 _ Hjson). done.
  - intros Hjson _. rewrite Hjson.
    rewrite bool_decide_eq_false_2 by (by intros [? ?]).
    rewrite Hbinary. done.
Qed.

(** ** Loading *)

Lemma match_history_mapping params examples :
  match_history (history_mapping params examples) = Some (params, examples).
Proof. reflexivity. Qed.

Lemma match_history_Some v params examples :
  match_history v = Some (params, examples) →
  v = history_mapping params examples.
Proof.
  destruct v as [| | | | |d| |]; simpl; try done.
  case_bool_decide as Hsize; [|done].
  destruct (d !! "params") as [p|] eqn:Hp; [|done].
  destruct (d !! "examples") as [e|] eqn:He; [|done].
  intros [= <- <-]. unfold history_mapping. f_equal.
  assert (Hrest : delete "params" (delete "examples" d) = ∅).
  { apply map_size_empty_inv.
    rewrite map_size_delete_Some by (by rewrite lookup_delete_ne, Hp).
    rewrite map_size_delete_Some by (by rewrite He). by rewrite Hsize. }
  apply map_eq. intros k.
  destruct (decide (k = "params")) as [->|Hkp].
  { by rewrite lookup_insert_eq. }
  rewrite lookup_insert_ne by done.
  destruct (decide (k = "examples")) as [->|Hke].
  { by rewrite lookup_singleton_eq. }
  rewrite lookup_singleton_ne by done.
  apply (f_equal (λ m, m !! k)) in Hrest.
  by rewrite !lookup_delete_ne, lookup_empty in Hrest.
Qed.

Lemma match_history_None v :
  (∀ params examples, v ≠ history_mapping params examples) →
  match_history v = None.
Proof.
  intros Hshape. destruct (match_history v) as [[params examples]|] eqn:Hm;
    [|done].
  by apply match_history_Some, Hshape in Hm.
Qed.

Lemma ensure_file_run path s :
  ensure_file path s =
  (Ok tt,
   State (self s)
     (if bool_decide (is_Some (files (env s) !! path))
      then emit (EvEnsure path) (env s)
      else put_file path "" (emit (EvEnsure path) (env s)))).
Proof.
  unfold ensure_file, os_path_exists. munfold. simpl.
  by case_bool_decide.
Qed.

Lemma _load_data_empty s :
  let path := data_file (self s) in
  path ∉ locked (env s) →
  files (env s) !! path = None ∨ files (env s) !! path = Some "" →
  ∃ w, _load_data s = (Ok tt, State (self s) w) ∧ files w !! path = Some "".
Proof.
  intros path Hfree Hfile. unfold _load_data.
  erewrite bind_eq by reflexivity. fold path.
  erewrite bind_eq by apply ensure_file_run.
  set (w1 := if bool_decide _ then _ else _).
  assert (files w1 !! path = Some "" ∧ locked w1 = locked (env s))
    as [Hfile1 Hlocked1].
  { subst w1. case_bool_decide as Hthere; simpl.
    - destruct Hfile as [Hfile|Hfile]; [|done].
      rewrite Hfile in Hthere. by destruct Hthere.
    - by rewrite lookup_insert_eq. }
  rewrite Lock_acquired; simpl; [|by rewrite Hfile1|by rewrite Hlocked1].
  erewrite _load_from_run; [|simpl; exact Hfile1|reflexivity].
  simpl. eexists. split; [by destruct s as [[] ?]|]. done.
Qed.

Lemma _load_data_malformed s contents v :
  let path := data_file (self s) in
  path ∉ locked (env s) →
  files (env s) !! path = Some contents →
  contents ≠ "" →
  loads_of (self s) contents = Ok v →
  match_history v = None →
  ∃ w, _load_data s = (Raise (MatchError v), State (self s) w) ∧
       files w = files (env s).
Proof.
  intros path Hfree Hfile Hne Hv Hm. unfold _load_data.
  erewrite bind_eq by reflexivity. fold path.
  erewrite bind_eq by apply ensure_file_run.
  rewrite bool_decide_eq_true_2 by (by rewrite Hfile).
  rewrite Lock_acquired; simpl; [|by rewrite Hfile|done].
  unfold _load_from, df_read, _loads. munfold. simpl. rewrite Hfile. simpl.
  rewrite bool_decide_eq_false_2 by done. simpl. rewrite Hv, Hm. simpl.
  eexists. split; [reflexivity|done].
Qed.

#[local] Instance same_history_preorder : PreOrder same_history.
Proof.
  split; [by intros ?|]. intros x y z (? & ? & ?) (? & ? & ?).
  repeat split; congruence.
Qed.

Lemma same_history_run alg : stable same_history (run alg).
Proof. unfold run, run_backend. stable_go; by repeat split. Qed.

(** C6: loading an empty (or absent) data file gives an empty history;
    loading a file whose decoded contents are not a mapping with exactly the
    keys "params" and "examples" raises [MatchError], and leaves the object
    and the file as they are. *)
Theorem load_empty_or_malformed (s : state) :
  let path := data_file (self s) in
  path ∉ locked (env s) →
  (files (env s) !! path = None ∨ files (env s) !! path = Some "" →
   (_load_data s).1 = Ok tt ∧
   self (_load_data s).2 = self s ∧
   _old_params (self (reload s).2) = PDict ∅ ∧
   _examples (self (reload s).2) = []) ∧
  (∀ contents v,
     files (env s) !! path = Some contents →
     contents ≠ "" →
     loads_of (self s) contents = Ok v →
     (∀ params examples, v ≠ history_mapping params examples) →
     (_load_data s).1 = Raise (MatchError v) ∧
     self (_load_data s).2 = self s ∧
     files (env (_load_data s).2) = files (env s) ∧
     (reload s).1 = Raise (MatchError v) ∧
     files (env (reload s).2) = files (env s)).
Proof.
  intros path Hfree. split.
  - intros Hfile.
    destruct (_load_data_empty s Hfree Hfile) as (w & Hload & Hw).
    rewrite Hload. simpl. split; [done|]. split; [done|].
    unfold reload. do 2 (erewrite bind_eq by reflexivity). simpl.
    set (s0 := State (set_examples [] _) _).
    destruct (_load_data_empty s0) as (w0 & Hload0 & Hw0); [done..|].
    erewrite bind_eq by exact Hload0.
    destruct (same_history_run PNone (State (self s0) w0)) as (-> & -> & _).
    done.
  - intros contents v Hfile Hne Hv Hshape.
    pose proof (match_history_None v Hshape) as Hm.
    destruct (_load_data_malformed s contents v Hfree Hfile Hne Hv Hm)
      as (w & Hload & Hw).
    rewrite Hload. simpl. do 3 (split; [done|]).
    unfold reload. do 2 (erewrite bind_eq by reflexivity). simpl.
    set (s0 := State (set_examples [] _) _).
    destruct (_load_data_malformed s0 contents v) as (w0 & Hload0 & Hw0);
      [done..|].
    erewrite bind_raise by exact Hload0. done.
Qed.

(** ** Setting the reward *)

Lemma _set_reward_run s r reward_type value v :
  the_run (self s) = Some r →
  got_reward r = false →
  reward_value value = Some v →
  _set_reward reward_type value s =
  (if is_serving_instance (backend r) then ret tt else _save_data)
    (store_reward reward_type v r s).
Proof.
  intros Hr Hgot Hv. unfold _set_reward.
  rewrite (bind_eq _ _ _ _ _ (_got_reward_run s r Hr)), Hgot.
  assert (Hnorm :
    match value with
    | PArray shape items =>
        if bool_decide (length shape ≠ 1%nat)
        then raise (ValueError "gain/loss must be a scalar or 1-dimensional array")
        else ret (PTuple (ndarray_iter shape items))
    | _ => ret value
    end s = (Ok v, s)).
  { destruct value; simpl in Hv; try by injection Hv as <-.
    case_bool_decide; [|done]. injection Hv as <-.
    by rewrite bool_decide_eq_false_2 by (by intros ?). }
  rewrite (bind_eq _ _ _ _ _ Hnorm).
  unfold is_serving, store_reward. munfold. simpl. rewrite Hr. simpl.
  by destruct (is_serving_instance (backend r)).
Qed.

Lemma _set_reward_rejects s r reward_type shape items :
  the_run (self s) = Some r →
  got_reward r = false →
  length shape ≠ 1%nat →
  _set_reward reward_type (PArray shape items) s =
  (Raise (ValueError "gain/loss must be a scalar or 1-dimensional array"), s).
Proof.
  intros Hr Hgot Hrank. unfold _set_reward.
  rewrite (bind_eq _ _ _ _ _ (_got_reward_run s r Hr)), Hgot.
  rewrite bool_decide_eq_true_2 by done. reflexivity.
Qed.

#[local] Instance log_grows_preorder : PreOrder log_grows.
Proof.
  split; unfold log_grows; [by intros ?|].
  intros x y z Hxy Hyz. by etransitivity.
Qed.

Ltac grows_leaf :=
  unfold log_grows; simpl;
  first [ reflexivity | by apply prefix_app_r | done ].

Ltac grows_go := stable_go; try grows_leaf.

Lemma grows_tell_examples exs : stable log_grows (tell_examples exs).
Proof. unfold tell_examples. grows_go. Qed.

Lemma grows__load_from df : stable log_grows (_load_from df).
Proof.
  unfold _load_from, df_read, _loads. grows_go; apply grows_tell_examples.
Qed.

Lemma grows_save_block df : stable log_grows (block (save_block df)).
Proof.
  refine (stable_block _ _ _). unfold save_block.
  repeat match goal with |- Forall _ _ => constructor end.
  - unfold stamp_current_example, time_time. grows_go.
  - unfold tell_current_example. grows_go. apply grows_tell_examples.
  - apply grows__load_from.
  - unfold clear_file. grows_go.
  - unfold write_data, get_data, _dumps, df_write. grows_go.
  - unfold sync_file. grows_go.
Qed.

Lemma Lock_requested {A} path mode (body : M A) s :
  stable log_grows body →
  ∃ evs, log (env (Lock path mode body s).2) =
         log (env s) ++ EvLockRequest path mode :: evs.
Proof.
  intros Hbody. unfold Lock, lock_acquire. rewrite bind_assoc.
  erewrite bind_eq by reflexivity.
  match goal with |- context [bind ?c ?k ?s1] =>
    assert (Hrest : log_grows s1 (bind c k s1).2) end.
  { revert s. refine (λ s, _).
    match goal with |- log_grows ?s1 (?c ?s1).2 =>
      generalize s1; change (stable log_grows c) end.
    unfold os_path_exists. grows_go. }
  destruct Hrest as [evs Hevs]. simpl in Hevs. exists evs.
  rewrite Hevs. simpl. by rewrite <- app_assoc.
Qed.

(** C4: setting a reward requests the exclusive lock of the data file, the
    first step of a commit, exactly when the strategy is not the serving
    one; under the serving strategy the world (the data file with it) and
    the list of examples stay as they are. *)
Theorem reward_commits_unless_serving (s : state) (r : run_state)
    (reward_type : string) (value v : pyval) :
  the_run (self s) = Some r →
  declaring r = true →
  reward_type = "loss" ∨ reward_type = "gain" →
  reward_value value = Some v →
  let s' := (_set_reward reward_type value s).2 in
  (commit_requested s s' ↔ is_serving_instance (backend r) = false) ∧
  (is_serving_instance (backend r) = false →
   _set_reward reward_type value s =
   _save_data (store_reward reward_type v r s)) ∧
  (is_serving_instance (backend r) = true →
   _set_reward reward_type value s = (Ok tt, store_reward reward_type v r s) ∧
   env s' = env s ∧ _examples (self s') = _examples (self s)).
Proof.
  intros Hr [Hgot Hts]%andb_prop Hkind Hv s'.
  apply negb_true_iff in Hgot. apply bool_decide_eq_true in Hts.
  pose proof (_set_reward_run s r reward_type value v Hr Hgot Hv) as Hrun.
  subst s'. rewrite Hrun.
  destruct (is_serving_instance (backend r)) eqn:Hserving.
  - split; [|split; [done|]].
    + split; [|done]. intros [evs Hevs]. simpl in Hevs.
      apply (f_equal length) in Hevs. rewrite length_app in Hevs.
      simpl in Hevs. lia.
    + intros _. by destruct s as [[] ?].
  - split; [|split; [done|done]].
    split; [done|]. intros _. unfold _save_data.
    erewrite bind_eq by (unfold store_reward; munfold; simpl; reflexivity).
    simpl. rewrite bool_decide_eq_false_2.
    2:{ rewrite lookup_insert_ne by (destruct Hkind; by subst).
        rewrite Hts. by intros [? ?]. }
    erewrite bind_eq by reflexivity.
    destruct (Lock_requested (data_file (self s)) "rb+"
                (block (save_block (data_file (self s))))
                (store_reward reward_type v r s)
                (grows_save_block _)) as [evs Hevs].
    exists evs. destruct s as [[] ?]. exact Hevs.
Qed.

(** *** A stored reward stays *)

Section Stored.
Context (k : string) (v : pyval) (Hk : k ≠ "timestamp").

Abbreviation holds := (stable (carries (stored k v))).

Ltac holds_leaf := unfold carries, stored; simpl; done.
Ltac holds_go := stable_go; try holds_leaf.

Lemma holds_stamp_current_example : holds stamp_current_example.
Proof.
  intros s (r & Hr & Hv). unfold stamp_current_example, time_time.
  munfold. simpl. rewrite Hr. simpl. exists (set_current_example
    (<["timestamp" := PNum (now (env s))]> (_current_example r)) r).
  split; [done|]. simpl. by rewrite lookup_insert_ne.
Qed.

Lemma holds_tell_examples exs : holds (tell_examples exs).
Proof. unfold tell_examples. holds_go. Qed.

Lemma holds__load_from df : holds (_load_from df).
Proof.
  unfold _load_from, df_read, _loads. holds_go; apply holds_tell_examples.
Qed.

Lemma holds__save_data : holds _save_data.
Proof.
  unfold _save_data, Lock, lock_acquire, os_path_exists. holds_go.
  refine (stable_block _ _ _). unfold save_block.
  repeat match goal with |- Forall _ _ => constructor end.
  - apply holds_stamp_current_example.
  - unfold tell_current_example. holds_go. apply holds_tell_examples.
  - apply holds__load_from.
  - unfold clear_file. holds_go.
  - unfold write_data, get_data, _dumps, df_write. holds_go.
  - unfold sync_file. holds_go.
Qed.

End Stored.

Lemma _set_reward_stored s r reward_type value v :
  the_run (self s) = Some r →
  got_reward r = false →
  reward_type = "loss" ∨ reward_type = "gain" →
  reward_value value = Some v →
  stored reward_type (denumpy_all v) (_set_reward reward_type value s).2.
Proof.
  intros Hr Hgot Hkind Hv.
  rewrite (_set_reward_run s r reward_type value v Hr Hgot Hv).
  assert (Hs : stored reward_type (denumpy_all v) (store_reward reward_type v r s)).
  { eexists. split; [reflexivity|]. simpl. apply lookup_insert_eq. }
  destruct (is_serving_instance (backend r)); [done|].
  apply holds__save_data; [|done]. destruct Hkind; by subst.
Qed.

Lemma stored_rewarded reward_type v s :
  reward_type = "loss" ∨ reward_type = "gain" →
  stored reward_type v s → rewarded s = true.
Proof.
  intros Hkind (r & Hr & Hv). unfold rewarded, got_reward. rewrite Hr.
  destruct Hkind; subst; rewrite Hv; simpl; [done|apply orb_true_r].
Qed.

(** *** numpy rewards *)

Lemma ndarray_iter_vector items :
  ndarray_iter [length items] items = PNpNum <$> items.
Proof.
  unfold ndarray_iter, prod_shape. simpl.
  apply list_eq. intros i. rewrite !list_lookup_fmap.
  destruct (decide (i < length items)%nat) as [Hlt|Hge].
  - rewrite lookup_seq_lt by done. simpl.
    destruct (lookup_lt_is_Some_2 items i Hlt) as [x Hx]. rewrite Hx. simpl.
    do 2 f_equal. rewrite Nat.mul_1_r.
    rewrite <- (take_drop_middle items i x Hx).
    rewrite drop_app_length' by (rewrite length_take; lia). done.
  - rewrite lookup_seq_ge by lia.
    by rewrite (lookup_ge_None_2 items i) by lia.
Qed.

Lemma denumpy_all_vector items :
  denumpy_all (PTuple (PNpNum <$> items)) = PTuple (PNum <$> items).
Proof. simpl. f_equal. rewrite <- list_fmap_compose. done. Qed.

Lemma is_plain_numbers items : is_plain (PTuple (PNum <$> items)) = true.
Proof. simpl. induction items as [|x items IH]; [done|]. simpl. exact IH. Qed.

(** C8: a reward that is an array of rank greater than 1 is rejected with
    a [ValueError]; a numpy scalar is stored as a plain number and a
    1-dimensional array as the plain sequence of its items. *)
Theorem reward_validated_and_normalized (s : state) (r : run_state)
    (reward_type : string) :
  the_run (self s) = Some r →
  got_reward r = false →
  reward_type = "loss" ∨ reward_type = "gain" →
  (∀ shape items,
     (1 < length shape)%nat →
     _set_reward reward_type (PArray shape items) s =
     (Raise (ValueError "gain/loss must be a scalar or 1-dimensional array"), s)) ∧
  (∀ z, stored reward_type (PNum z)
               (_set_reward reward_type (PNpNum z) s).2 ∧
        is_plain (PNum z) = true) ∧
  (∀ items, stored reward_type (PTuple (PNum <$> items))
                   (_set_reward reward_type (PArray [length items] items) s).2 ∧
            is_plain (PTuple (PNum <$> items)) = true).
Proof.
  intros Hr Hgot Hkind. repeat split.
  - intros shape items Hrank. apply (_set_reward_rejects s r); [done..|lia].
  - by apply (_set_reward_stored s r reward_type (PNpNum z) (PNpNum z)).
  - rewrite <- denumpy_all_vector, <- ndarray_iter_vector.
    by apply (_set_reward_stored s r).
  - apply is_plain_numbers.
Qed.

(** ** No example twice *)

Lemma merge_examples_snoc own exs ex :
  merge_examples own (exs ++ [ex]) =
  let acc := merge_examples own exs in
  if bool_decide (ex ∈ acc) then acc else acc ++ [ex].
Proof. unfold merge_examples. by rewrite foldl_app. Qed.

Lemma merge_examples_NoDup own exs :
  NoDup own → NoDup (merge_examples own exs).
Proof.
  intros Hown. induction exs as [|ex exs IH] using rev_ind; [done|].
  rewrite merge_examples_snoc. simpl. case_bool_decide; [done|].
  apply NoDup_app. split; [done|]. split; [|apply NoDup_singleton].
  intros x Hx ->%list_elem_of_singleton. done.
Qed.

Lemma merge_examples_present own ex :
  ex ∈ own → merge_examples own [ex] = own.
Proof. intros Hin. simpl. by rewrite bool_decide_eq_true_2. Qed.

Section Deduplicated.
Context (o : optimizer).

Abbreviation keeps := (stable (carries (deduplicated o))).

Lemma deduplicated_emit e s :
  deduplicated_write o e →
  deduplicated o s → deduplicated o (State (self s) (emit e (env s))).
Proof.
  intros He (Hp & Hnd & Hlog). repeat split; [done..|].
  simpl. apply Forall_app. split; [done|]. by apply Forall_singleton.
Qed.

Ltac keeps_leaf :=
  unfold carries;
  lazymatch goal with
  | |- deduplicated _ _ → deduplicated _ _ =>
      first
        [ by apply deduplicated_emit
        | intros (Hp & Hnd & Hlog); repeat split; simpl;
          first [ done | by apply merge_examples_NoDup | apply NoDup_nil_2
                | by (apply Forall_app; split; [|apply Forall_singleton]) ] ]
  end.

Ltac keeps_go := stable_go; try keeps_leaf.

Lemma keeps_tell_examples exs : keeps (tell_examples exs).
Proof. unfold tell_examples. keeps_go. Qed.

Lemma keeps_run_backend name args options : keeps (run_backend name args options).
Proof. unfold run_backend. keeps_go. Qed.

Lemma keeps_run alg : keeps (run alg).
Proof. unfold run. keeps_go; apply keeps_run_backend. Qed.

Lemma keeps__got_reward : keeps _got_reward.
Proof. unfold _got_reward. keeps_go. Qed.

Lemma keeps__param name func args kwargs : keeps (_param name func args kwargs).
Proof.
  unfold _param, call_backend_param.
  refine (stable_bind _ _ _ _ _); [apply keeps__got_reward|intros ?]. keeps_go.
Qed.

Lemma keeps_remember info : keeps (remember info).
Proof.
  unfold remember.
  refine (stable_bind _ _ _ _ _); [apply keeps__got_reward|intros ?]. keeps_go.
Qed.

Lemma keeps__load_from df : keeps (_load_from df).
Proof.
  unfold _load_from, df_read, _loads.
  keeps_go; try apply keeps_tell_examples.
Qed.

Lemma keeps_Lock {A} path mode (body : M A) :
  keeps body → keeps (Lock path mode body).
Proof.
  intros Hbody. unfold Lock, lock_acquire, os_path_exists. keeps_go; done.
Qed.

Lemma keeps__load_data : keeps _load_data.
Proof.
  unfold _load_data, ensure_file, os_path_exists. keeps_go.
  apply keeps_Lock, keeps__load_from.
Qed.

Lemma keeps_get_data : keeps get_data.
Proof. unfold get_data. keeps_go. Qed.

Lemma keeps_write_data df : keeps (write_data df).
Proof.
  intros s (Hp & Hnd & Hlog). unfold write_data, get_data, _dumps, df_write.
  munfold. simpl.
  destruct (_old_params (self s)) as [| | | | |d| |]; simpl; try done.
  destruct (the_run (self s)) as [r|]; simpl; [|done].
  match goal with |- context [dumps_of ?o' ?v] =>
    destruct (dumps_of o' v) as [raw|] eqn:Hraw end; simpl; [|done].
  repeat split; simpl; [done..|].
  apply Forall_app. split; [done|]. apply Forall_singleton. simpl.
  eexists _, _. split; [exact Hnd|].
  rewrite <- Hraw. by apply dumps_of_protocol.
Qed.

Lemma keeps__save_data : keeps _save_data.
Proof.
  unfold _save_data. keeps_go. apply keeps_Lock.
  refine (stable_block _ _ _). unfold save_block.
  repeat match goal with
         | |- Forall _ _ => constructor
         end.
  - unfold stamp_current_example, time_time. keeps_go.
  - unfold tell_current_example. keeps_go. apply keeps_tell_examples.
  - apply keeps__load_from.
  - unfold clear_file. keeps_go.
  - apply keeps_write_data.
  - unfold sync_file. keeps_go.
Qed.

Lemma keeps__set_reward reward_type value : keeps (_set_reward reward_type value).
Proof.
  unfold _set_reward, is_serving.
  refine (stable_bind _ _ _ _ _); [apply keeps__got_reward|intros ?].
  keeps_go; apply keeps__save_data.
Qed.

Lemma keeps_reload : keeps reload.
Proof.
  unfold reload. keeps_go; [apply keeps__load_data|apply keeps_run].
Qed.

Lemma keeps_perform c : keeps (perform c).
Proof.
  destruct c; simpl.
  - apply keeps_reload.
  - apply keeps_run.
  - apply keeps_run_backend.
  - keeps_go. apply keeps__param.
  - apply keeps_remember.
  - apply keeps__set_reward.
  - apply keeps__set_reward.
  - apply keeps_tell_examples.
  - keeps_go. apply keeps_get_data.
  - apply keeps__load_data.
  - apply keeps__save_data.
  - keeps_go.
Qed.

Lemma keeps_perform_all cs s :
  deduplicated o s → deduplicated o (perform_all cs s).
Proof.
  revert s. induction cs as [|c cs IH]; intros s Hs; [done|].
  simpl. apply IH. by apply keeps_perform.
Qed.

End Deduplicated.


(** ** Several processes *)

(** *** What the steps of a process leave alone *)

#[local] Instance quiet_preorder : PreOrder quiet.
Proof.
  split; [by intros ?|]. intros x y z (? & ? & ? & ?) (? & ? & ? & ?).
  repeat split; congruence.
Qed.

#[local] Instance same_run_preorder : PreOrder same_run.
Proof. split; [by intros ?|]. intros x y z ? ?. unfold same_run in *. congruence. Qed.

#[local] Instance same_clock_locks_preorder : PreOrder same_clock_locks.
Proof.
  split; [by intros ?|]. intros x y z (? & ?) (? & ?). split; congruence.
Qed.

Lemma quiet_data_file s s' : quiet s s' → data_file (self s') = data_file (self s).
Proof. intros (Hf & Hp & _). unfold data_file, _use_json. by rewrite Hf, Hp. Qed.

Lemma quiet_statement df k c :
  save_block df !! k = Some c → stable quiet c.
Proof.
  intros Hc. unfold save_block in Hc.
  destruct k as [|[|[|[|[|[|k]]]]]]; simpl in Hc; [injection Hc as <-..|done].
  - unfold stamp_current_example, time_time. stable_go; by repeat split.
  - unfold tell_current_example, tell_examples. stable_go; by repeat split.
  - unfold _load_from, df_read, _loads, tell_examples.
    stable_go; by repeat split.
  - unfold clear_file. stable_go; by repeat split.
  - unfold write_data, get_data, _dumps, df_write. stable_go; by repeat split.
  - unfold sync_file. stable_go; by repeat split.
Qed.

Lemma same_run_statement df k c :
  save_block df !! S k = Some c → stable same_run c.
Proof.
  intros Hc. unfold save_block in Hc.
  destruct k as [|[|[|[|[|k]]]]]; simpl in Hc; [injection Hc as <-..|done].
  - unfold tell_current_example, tell_examples. stable_go; done.
  - unfold _load_from, df_read, _loads, tell_examples. stable_go; done.
  - unfold clear_file. stable_go; done.
  - unfold write_data, get_data, _dumps, df_write. stable_go; done.
  - unfold sync_file. stable_go; done.
Qed.

Lemma release_effect path s :
  self (release path s) = self s ∧
  locked (env (release path s)) = locked (env s) ∖ {[path]} ∧
  now (env (release path s)) = now (env s).
Proof. done. Qed.

Lemma Lock_same_clock_locks {A} path mode (body : M A) :
  stable same_clock_locks body → stable same_clock_locks (Lock path mode body).
Proof.
  intros Hbody s. unfold Lock, lock_acquire, os_path_exists. munfold. simpl.
  destruct (bool_decide (is_Some (files (env s) !! path))); simpl; [|done].
  case_bool_decide as Hheld; simpl; [done|].
  match goal with |- context [body ?s1] =>
    destruct (Hbody s1) as [Hl Hn]; destruct (body s1) as [o s2] end.
  simpl in *. split; simpl; [|done]. rewrite Hl. by apply acquire_release.
Qed.

Ltac scl_go := stable_go; try (by split).

Lemma same_clock_locks__load_from df : stable same_clock_locks (_load_from df).
Proof. unfold _load_from, df_read, _loads, tell_examples. scl_go. Qed.

Lemma same_clock_locks__load_data : stable same_clock_locks _load_data.
Proof.
  unfold _load_data, ensure_file, os_path_exists. scl_go.
  apply Lock_same_clock_locks, same_clock_locks__load_from.
Qed.

Lemma same_clock_locks_run alg : stable same_clock_locks (run alg).
Proof. unfold run, run_backend. scl_go. Qed.

Lemma same_clock_locks_local c :
  local_call c = true → stable same_clock_locks (perform c).
Proof.
  destruct c; simpl; intros Hlocal; try discriminate Hlocal.
  - unfold reload. scl_go;
      [apply same_clock_locks__load_data|apply same_clock_locks_run].
  - apply same_clock_locks_run.
  - unfold run_backend. scl_go.
  - unfold _param, _got_reward, call_backend_param. scl_go.
  - unfold remember, _got_reward. scl_go.
  - unfold tell_examples. scl_go.
  - unfold get_data. scl_go.
  - apply same_clock_locks__load_data.
Qed.

Lemma save_prologue_cases o w :
  (∃ s', save_prologue (State o w) = (Ok (data_file o), s') ∧
         (data_file o ∉ locked w) ∧ self s' = o ∧
         locked (env s') = {[data_file o]} ∪ locked w ∧
         now (env s') = now w) ∨
  (∃ e s', save_prologue (State o w) = (Raise e, s') ∧ self s' = o ∧
           locked (env s') = locked w ∧ now (env s') = now w).
Proof.
  unfold save_prologue, lock_acquire, os_path_exists. munfold. simpl.
  destruct (the_run o) as [r|]; simpl; [|right; by eexists _, _].
  destruct (bool_decide (is_Some (_current_example r !! "timestamp")));
    simpl; [right; by eexists _, _|].
  destruct (bool_decide (is_Some (files w !! data_file o))); simpl;
    [|right; by eexists _, _].
  case_bool_decide as Hheld; simpl; [right; by eexists _, _|].
  left. by eexists.
Qed.

Lemma stamp_current_example_cases s :
  (∃ s', stamp_current_example s = (Ok tt, s') ∧
         example_stamp (self s') = Some (now (env s))) ∨
  (∃ e s', stamp_current_example s = (Raise e, s')).
Proof.
  destruct (the_run (self s)) as [r|] eqn:Hr.
  - left. rewrite (stamp_current_example_run s r Hr). eexists. split; [done|].
    unfold example_stamp. simpl. by rewrite lookup_insert_eq.
  - right. unfold stamp_current_example, time_time. munfold. simpl.
    rewrite Hr. by eexists _, _.
Qed.

(** *** The invariant of the system *)

Lemma proc_ok_locked w w' acq p :
  proc_ok w acq p →
  (is_Some (committing p) → data_file (session p) ∈ locked w') →
  proc_ok w' acq p.
Proof.
  unfold proc_ok. destruct (committing p) as [[a k]|]; [|done].
  intros (_ & ? & ? & ?) Hl. split; [by apply Hl|done].
Qed.

Lemma sys_inv_settle sys i p0 s' c' acq' :
  sys_inv sys →
  procs sys !! i = Some p0 →
  (∀ a q t, acq' !! a = Some (q, Some t) → t ≤ now (env s')) →
  stamps_ordered acq' →
  proc_ok (env s') acq' (Process (self s') c') →
  (∀ j q, j ≠ i → procs sys !! j = Some q →
          proc_ok (shared sys) (acquired sys) q → proc_ok (env s') acq' q) →
  (is_Some c' → ∀ j q, j ≠ i → procs sys !! j = Some q →
                       is_Some (committing q) →
                       data_file (self s') ≠ data_file (session q)) →
  sys_inv (settle i s' c' acq' sys).
Proof.
  intros (J1 & J2 & J3 & J4) Hi J1' J2' Pi Pj E.
  repeat split; simpl; [done..| |].
  - intros j q [(-> & <- & _)|(Hne & Hj)]%list_lookup_insert_Some; [done|].
    apply (Pj j q); [done..|]. by apply (J3 j).
  - intros j1 j2 q1 q2 Hne
      [(-> & <- & _)|(Hne1 & Hj1)]%list_lookup_insert_Some
      [(-> & <- & _)|(Hne2 & Hj2)]%list_lookup_insert_Some Hc1 Hc2;
      simpl in *.
    + done.
    + by apply (E Hc1 j2 q2).
    + apply not_eq_sym. by apply (E Hc2 j1 q1).
    + by apply (J4 j1 j2).
Qed.

Lemma sys_inv_idle sys i p0 s' :
  sys_inv sys →
  procs sys !! i = Some p0 →
  committing p0 = None →
  locked (env s') = locked (shared sys) →
  now (env s') = now (shared sys) →
  sys_inv (settle i s' None (acquired sys) sys).
Proof.
  intros Hinv Hi Hidle Hl Hn. pose proof Hinv as (J1 & J2 & J3 & J4).
  apply (sys_inv_settle sys i p0); try done.
  - intros a q t Ha. rewrite Hn. by apply (J1 a q).
  - intros j q _ _ Hq. apply (proc_ok_locked _ _ _ _ Hq).
    intros Hc. rewrite Hl. unfold proc_ok in Hq.
    destruct (committing q) as [[a k]|]; [tauto|by destruct Hc].
Qed.

Lemma sys_inv_release sys i o a k s' :
  sys_inv sys →
  procs sys !! i = Some (Process o (Some (a, k))) →
  locked (env s') = locked (shared sys) ∖ {[data_file o]} →
  now (env s') = now (shared sys) →
  sys_inv (settle i s' None (acquired sys) sys).
Proof.
  intros Hinv Hi Hl Hn. pose proof Hinv as (J1 & J2 & J3 & J4).
  apply (sys_inv_settle sys i _ _ _ _ Hinv Hi); try done.
  - intros b q t Hb. rewrite Hn. by apply (J1 b q).
  - intros j q Hne Hj Hq. apply (proc_ok_locked _ _ _ _ Hq).
    intros Hc. rewrite Hl. apply elem_of_difference. split.
    + unfold proc_ok in Hq.
      destruct (committing q) as [[b l]|]; [tauto|by destruct Hc].
    + rewrite elem_of_singleton.
      by apply (J4 j i q (Process o (Some (a, k)))).
Qed.

Lemma begin_inv sys i o s' :
  sys_inv sys →
  procs sys !! i = Some (Process o None) →
  save_prologue (State o (shared sys)) = (Ok (data_file o), s') →
  data_file o ∉ locked (shared sys) →
  self s' = o →
  locked (env s') = {[data_file o]} ∪ locked (shared sys) →
  now (env s') = now (shared sys) →
  sys_inv (settle i s' (Some (length (acquired sys), 0%nat))
             (acquired sys ++ [(data_file o, None)]) sys).
Proof.
  intros Hinv Hi _ Hfree Hself Hl Hn. pose proof Hinv as (J1 & J2 & J3 & J4).
  apply (sys_inv_settle sys i _ _ _ _ Hinv Hi).
  - intros a q t [[_ Ha]|[_ [=]]]%lookup_snoc_Some.
    rewrite Hn. by apply (J1 a q).
  - intros p a b ta tb Hab [[_ Ha]|[_ [=]]]%lookup_snoc_Some
      [[_ Hb]|[_ [=]]]%lookup_snoc_Some.
    by apply (J2 p a b).
  - unfold proc_ok. simpl. rewrite Hself, Hl. repeat split.
    + apply elem_of_union_l. by apply elem_of_singleton.
    + by rewrite lookup_app_r, Nat.sub_diag.
    + done.
    + intros _ b q x Hb Hlook. apply lookup_lt_Some in Hlook.
      rewrite length_app in Hlook. simpl in Hlook. lia.
  - intros j q Hne Hj. unfold proc_ok.
    destruct (committing q) as [[b l]|]; [|done].
    intros (Hlk & Hent & Hst & Hlater). repeat split; [| |done|].
    + rewrite Hl. by apply elem_of_union_r.
    + by apply lookup_app_l_Some.
    + intros Hl0 b' q' x Hb' [[_ Hold]|[_ [= <- <-]]]%lookup_snoc_Some.
      * by apply (Hlater Hl0 b' q' x).
      * intros Heq. by rewrite Heq in Hfree.
  - intros _ j q Hne Hj Hc. rewrite Hself. intros Heq.
    specialize (J3 j q Hj). unfold proc_ok in J3.
    destruct (committing q) as [[b l]|]; [|by destruct Hc].
    destruct J3 as [Hlk _]. by rewrite <- Heq in Hlk.
Qed.

Lemma example_stamp_same_run s s' :
  same_run s s' → example_stamp (self s') = example_stamp (self s).
Proof. unfold same_run, example_stamp. by intros ->. Qed.

Lemma stamp_inv sys i o a s' :
  sys_inv sys →
  procs sys !! i = Some (Process o (Some (a, 0%nat))) →
  quiet (State o (shared sys)) s' →
  example_stamp (self s') = Some (now (shared sys)) →
  sys_inv (settle i s' (Some (a, 1%nat))
             (<[a := (data_file o, example_stamp (self s'))]> (acquired sys))
             sys).
Proof.
  intros Hinv Hi Hquiet Hstamp. pose proof Hinv as (J1 & J2 & J3 & J4).
  pose proof (quiet_data_file _ _ Hquiet) as Hdf. simpl in Hdf.
  destruct Hquiet as (_ & _ & Hl & Hn). simpl in Hl, Hn.
  pose proof (J3 i _ Hi) as Hpi. unfold proc_ok in Hpi. simpl in Hpi.
  destruct Hpi as (Hlk & Hent & _ & Hlater). specialize (Hlater eq_refl).
  pose proof (lookup_lt_Some _ _ _ Hent) as Hlen.
  rewrite Hstamp.
  apply (sys_inv_settle sys i _ _ _ _ Hinv Hi).
  - intros b q t [(<- & [= <- <-] & _)|(Hne & Hb)]%list_lookup_insert_Some.
    + by rewrite Hn.
    + rewrite Hn. by apply (J1 b q).
  - intros p x y tx ty Hxy Hx Hy.
    apply list_lookup_insert_Some in Hx as [(<- & Hx & _)|(Hnx & Hx)];
      apply list_lookup_insert_Some in Hy as [(<- & Hy & _)|(Hny & Hy)].
    + lia.
    + injection Hx as <- <-. by destruct (Hlater y (data_file o) (Some ty)).
    + injection Hy as <- <-. by apply (J1 x (data_file o)).
    + by apply (J2 p x y).
  - unfold proc_ok. simpl. rewrite Hdf, Hl, Hstamp. repeat split; [done| |done..].
    by apply list_lookup_insert_eq.
  - intros j q Hne Hj. unfold proc_ok.
    destruct (committing q) as [[b l]|] eqn:Hcq; [|done].
    intros (Hlkq & Hentq & Hstq & Hlaterq).
    assert (data_file (session q) ≠ data_file o) as Hpaths.
    { apply (J4 j i q (Process o (Some (a, 0%nat)))); try done. }
    repeat split; [by rewrite Hl| |done|].
    + rewrite list_lookup_insert_ne; [done|]. intros ->. congruence.
    + intros Hl0 b' q' x Hb'
        [(<- & [= <- <-] & _)|(_ & Hold)]%list_lookup_insert_Some.
      * by apply not_eq_sym.
      * by apply (Hlaterq Hl0 b' q' x).
  - intros _ j q Hne Hj Hc. rewrite Hdf.
    by apply (J4 i j (Process o (Some (a, 0%nat))) q).
Qed.

Lemma statement_inv sys i o a k s' :
  sys_inv sys →
  procs sys !! i = Some (Process o (Some (a, S k))) →
  quiet (State o (shared sys)) s' →
  same_run (State o (shared sys)) s' →
  sys_inv (settle i s' (Some (a, S (S k))) (acquired sys) sys).
Proof.
  intros Hinv Hi Hquiet Hrun. pose proof Hinv as (J1 & J2 & J3 & J4).
  pose proof (quiet_data_file _ _ Hquiet) as Hdf. simpl in Hdf.
  pose proof (example_stamp_same_run _ _ Hrun) as Hst. simpl in Hst.
  destruct Hquiet as (_ & _ & Hl & Hn). simpl in Hl, Hn.
  pose proof (J3 i _ Hi) as Hpi. unfold proc_ok in Hpi. simpl in Hpi.
  destruct Hpi as (Hlk & Hent & Hsome & _).
  apply (sys_inv_settle sys i _ _ _ _ Hinv Hi); [|done| | |].
  - intros b q t Hb. rewrite Hn. by apply (J1 b q).
  - unfold proc_ok. simpl. rewrite Hdf, Hl, Hst. repeat split; try done.
    intros _. by apply Hsome.
  - intros j q _ _ Hq. apply (proc_ok_locked _ _ _ _ Hq).
    intros Hc. rewrite Hl. unfold proc_ok in Hq.
    destruct (committing q) as [[b l]|]; [tauto|by destruct Hc].
  - intros _ j q Hne Hj Hc. rewrite Hdf.
    by apply (J4 i j (Process o (Some (a, S k))) q).
Qed.

Lemma fire_inv clock_ok a sys sys' :
  (∀ t t', clock_ok t t' = true → t ≤ t') →
  fire clock_ok a sys = Some sys' →
  sys_inv sys → sys_inv sys'.
Proof.
  intros Hclock Hfire Hinv. destruct a as [i o'|i c|i|i|i|t]; simpl in Hfire.
  - destruct (procs sys !! i) as [[o [ck|]]|] eqn:Hi; try done.
    injection Hfire as <-. by apply (sys_inv_idle sys i (Process o None)).
  - destruct (procs sys !! i) as [[o [ck|]]|] eqn:Hi; try done.
    destruct (local_call c) eqn:Hlocal; [|done]. injection Hfire as <-.
    destruct (same_clock_locks_local c Hlocal (State o (shared sys))) as [Hl Hn].
    by apply (sys_inv_idle sys i (Process o None)).
  - destruct (procs sys !! i) as [[o [ck|]]|] eqn:Hi; try done.
    destruct (save_prologue_cases o (shared sys))
      as [(s' & Hp & Hfree & Hself & Hl & Hn)|(e & s' & Hp & Hself & Hl & Hn)];
      rewrite Hp in Hfire; injection Hfire as <-.
    + by apply (begin_inv sys i o s').
    + by apply (sys_inv_idle sys i (Process o None)).
  - destruct (procs sys !! i) as [[o [[a k]|]]|] eqn:Hi; try done.
    destruct (save_block (data_file o) !! k) as [c|] eqn:Hc; [|done].
    pose proof (quiet_statement _ _ _ Hc (State o (shared sys))) as Hquiet.
    destruct (c (State o (shared sys))) as [[[]|e] s'] eqn:Hrun;
      injection Hfire as <-; simpl in Hquiet.
    + destruct k as [|k].
      * injection Hc as <-.
        destruct (stamp_current_example_cases (State o (shared sys)))
          as [(s1 & Hs1 & Hstamp)|(e & s1 & Hs1)]; [|congruence].
        assert (s1 = s') as -> by congruence.
        by apply (stamp_inv sys i o a s').
      * pose proof (same_run_statement _ _ _ Hc (State o (shared sys))) as Hsame.
        rewrite Hrun in Hsame. by apply (statement_inv sys i o a k s').
    + destruct Hquiet as (_ & _ & Hl & Hn).
      apply (sys_inv_release sys i o a k); simpl; [done..|by rewrite Hl|done].
  - destruct (procs sys !! i) as [[o [[a k]|]]|] eqn:Hi; try done.
    case_bool_decide; [|done]. injection Hfire as <-.
    by apply (sys_inv_release sys i o a k).
  - destruct (clock_ok (now (shared sys)) t) eqn:Ht; [|done].
    injection Hfire as <-. destruct Hinv as (J1 & J2 & J3 & J4).
    repeat split; simpl; [|done..].
    intros a q t' Ha. etransitivity; [by apply (J1 a q)|by apply Hclock].
Qed.

Lemma fire_all_inv clock_ok acts sys sys' :
  (∀ t t', clock_ok t t' = true → t ≤ t') →
  fire_all clock_ok acts sys = Some sys' →
  sys_inv sys → sys_inv sys'.
Proof.
  intros Hclock. revert sys'.
  induction acts as [|a acts IH] using rev_ind; intros sys' Hfire Hinv.
  - by injection Hfire as <-.
  - unfold fire_all in Hfire. rewrite foldl_app in Hfire. simpl in Hfire.
    fold (fire_all clock_ok acts sys) in Hfire.
    destruct (fire_all clock_ok acts sys) as [sys1|]; [|done].
    simpl in Hfire. eapply fire_inv; [done..|]. by apply IH.
Qed.

Lemma initial_inv sys : initial sys = true → sys_inv sys.
Proof.
  unfold initial. intros [[Hidle Hl%bool_decide_eq_true]%andb_prop
                           Hacq%bool_decide_eq_true]%andb_prop.
  rewrite forallb_forall in Hidle.
  assert (∀ i p, procs sys !! i = Some p → committing p = None) as Hnone.
  { intros i p Hi. apply list_elem_of_lookup_2, list_elem_of_In, Hidle in Hi.
    by apply bool_decide_eq_true in Hi. }
  repeat split.
  - intros a q t. by rewrite Hacq.
  - intros p a b ta tb _. by rewrite Hacq.
  - intros i p Hi. unfold proc_ok. by rewrite (Hnone i p Hi).
  - intros i j p q _ Hi _ [? Hc]. by rewrite (Hnone i p Hi) in Hc.
Qed.

(** *** The steps of a commit make up [_save_data] *)

Lemma bind_Ok_inv {A B} (c : M A) (k : A → M B) s b s' :
  bind c k s = (Ok b, s') → ∃ a s1, c s = (Ok a, s1) ∧ k a s1 = (Ok b, s').
Proof.
  unfold bind. destruct (c s) as [[a|e] s1]; [|done]. intros Hk.
  by exists a, s1.
Qed.

Lemma _save_data_prologue s :
  _save_data s =
  bind save_prologue
       (λ path, finally (block (save_block path)) (release path)) s.
Proof.
  unfold _save_data, save_prologue, Lock.
  destruct (get_run "_current_example" s) as [[r|e] s1] eqn:Hr.
  2:{ by rewrite (bind_raise _ _ _ _ _ Hr), bind_assoc, (bind_raise _ _ _ _ _ Hr). }
  rewrite (bind_eq _ _ _ _ _ Hr), bind_assoc, (bind_eq _ _ _ _ _ Hr).
  destruct (bool_decide (is_Some (_current_example r !! "timestamp"))); [done|].
  rewrite bind_assoc, !bind_gets, bind_assoc.
  destruct (lock_acquire (data_file (self s1)) "rb+" s1) as [[[]|e] s2] eqn:Hl.
  - by rewrite !(bind_eq _ _ _ _ _ Hl).
  - by rewrite !(bind_raise _ _ _ _ _ Hl).
Qed.

Lemma fire_all_cons clock_ok a acts sys :
  fire_all clock_ok (a :: acts) sys =
  fire clock_ok a sys ≫= fire_all clock_ok acts.
Proof.
  unfold fire_all. simpl. destruct (fire clock_ok a sys) as [sys1|]; [done|].
  simpl. induction acts as [|b acts IH]; [done|]. exact IH.
Qed.

Lemma fire_statement clock_ok sys i o a k c s' :
  procs sys !! i = Some (Process o (Some (a, k))) →
  save_block (data_file o) !! k = Some c →
  c (State o (shared sys)) = (Ok tt, s') →
  fire clock_ok (Statement i) sys =
  Some (settle i s' (Some (a, S k))
          (match k with
           | O => <[a := (data_file o, example_stamp (self s'))]> (acquired sys)
           | _ => acquired sys
           end) sys).
Proof. intros Hi Hc Hrun. simpl. by rewrite Hi, Hc, Hrun. Qed.

Lemma settle_lookup i s c acq sys :
  (i < length (procs sys))%nat →
  procs (settle i s c acq sys) !! i = Some (Process (self s) c).
Proof. intros Hi. simpl. by apply list_lookup_insert_eq. Qed.

Lemma settle_settle i s1 c1 acq1 s2 c2 acq2 sys :
  settle i s2 c2 acq2 (settle i s1 c1 acq1 sys) = settle i s2 c2 acq2 sys.
Proof. unfold settle. simpl. by rewrite list_insert_insert_eq. Qed.

Lemma settle_length i s c acq sys :
  length (procs (settle i s c acq sys)) = length (procs sys).
Proof. simpl. apply length_insert. Qed.

(** A commit that goes through is what its steps do one after the other:
    the prologue, the six statements under the lock, the release. *)
Lemma commit_by_steps clock_ok sys i o s' :
  procs sys !! i = Some (Process o None) →
  _save_data (State o (shared sys)) = (Ok tt, s') →
  fire_all clock_ok (commit_script i) sys =
  Some (settle i s' None
          (acquired sys ++ [(data_file o, example_stamp (self s'))]) sys).
Proof.
  intros Hi Hsave. pose proof (lookup_lt_Some _ _ _ Hi) as Hlen.
  rewrite _save_data_prologue in Hsave.
  apply bind_Ok_inv in Hsave as (path & s0 & Hpro & Hbody).
  destruct (save_prologue_cases o (shared sys))
    as [(s0' & Hp & _ & Hself0 & _)|(e & s0' & Hp & _)]; [|congruence].
  assert (path = data_file o ∧ s0' = s0) as [-> ->] by (split; congruence).
  unfold finally in Hbody.
  destruct (block (save_block (data_file o)) s0) as [ob s6] eqn:Hblock.
  injection Hbody as -> <-.
  unfold save_block in Hblock.
  rewrite block_cons in Hblock.
  apply bind_Ok_inv in Hblock as ([] & s1 & H0' & Hblock).
  rewrite block_cons in Hblock.
  apply bind_Ok_inv in Hblock as ([] & s2 & H1' & Hblock).
  rewrite block_cons in Hblock.
  apply bind_Ok_inv in Hblock as ([] & s3 & H2' & Hblock).
  rewrite block_cons in Hblock.
  apply bind_Ok_inv in Hblock as ([] & s4 & H3' & Hblock).
  rewrite block_cons in Hblock.
  apply bind_Ok_inv in Hblock as ([] & s5 & H4' & Hblock).
  rewrite block_cons in Hblock.
  apply bind_Ok_inv in Hblock as ([] & s6' & H5' & Hblock).
  injection Hblock as ->.
  set (df := data_file o) in *.
  assert (∀ k c sa sb, save_block df !! k = Some c → c sa = (Ok tt, sb) →
                       data_file (self sa) = df → data_file (self sb) = df)
    as Hdf.
  { intros k c sa sb Hc Hrun <-. apply quiet_data_file.
    pose proof (quiet_statement _ _ _ Hc sa) as Hq. by rewrite Hrun in Hq. }
  assert (∀ k c sa sb, save_block df !! S k = Some c → c sa = (Ok tt, sb) →
                       example_stamp (self sb) = example_stamp (self sa))
    as Hst.
  { intros k c sa sb Hc Hrun. apply example_stamp_same_run.
    pose proof (same_run_statement _ _ _ Hc sa) as Hq. by rewrite Hrun in Hq. }
  assert (data_file (self s0) = df) as D0 by by rewrite Hself0.
  pose proof (Hdf 0%nat _ _ _ eq_refl H0' D0) as D1.
  pose proof (Hdf 1%nat _ _ _ eq_refl H1' D1) as D2.
  pose proof (Hdf 2%nat _ _ _ eq_refl H2' D2) as D3.
  pose proof (Hdf 3%nat _ _ _ eq_refl H3' D3) as D4.
  pose proof (Hdf 4%nat _ _ _ eq_refl H4' D4) as D5.
  pose proof (Hst 0%nat _ _ _ eq_refl H1') as E2.
  pose proof (Hst 1%nat _ _ _ eq_refl H2') as E3.
  pose proof (Hst 2%nat _ _ _ eq_refl H3') as E4.
  pose proof (Hst 3%nat _ _ _ eq_refl H4') as E5.
  pose proof (Hst 4%nat _ _ _ eq_refl H5') as E6.
  assert (example_stamp (self (release df s6)) = example_stamp (self s1))
    as -> by (simpl; congruence).
  destruct s0 as [o0 w0], s1 as [o1 w1], s2 as [o2 w2], s3 as [o3 w3],
           s4 as [o4 w4], s5 as [o5 w5], s6 as [o6 w6]. simpl in *.
  unfold commit_script. simpl replicate. simpl app.
  rewrite fire_all_cons. simpl fire. rewrite Hi, Hpro. simpl mbind.
  rewrite fire_all_cons.
  erewrite fire_statement;
    [|by apply settle_lookup|cbn [self]; rewrite D0; reflexivity|exact H0'].
  simpl mbind. rewrite settle_settle.
  rewrite fire_all_cons.
  erewrite fire_statement;
    [|by apply settle_lookup|cbn [self]; rewrite D1; reflexivity|exact H1'].
  simpl mbind. rewrite settle_settle.
  rewrite fire_all_cons.
  erewrite fire_statement;
    [|by apply settle_lookup|cbn [self]; rewrite D2; reflexivity|exact H2'].
  simpl mbind. rewrite settle_settle.
  rewrite fire_all_cons.
  erewrite fire_statement;
    [|by apply settle_lookup|cbn [self]; rewrite D3; reflexivity|exact H3'].
  simpl mbind. rewrite settle_settle.
  rewrite fire_all_cons.
  erewrite fire_statement;
    [|by apply settle_lookup|cbn [self]; rewrite D4; reflexivity|exact H4'].
  simpl mbind. rewrite settle_settle.
  rewrite fire_all_cons.
  erewrite fire_statement;
    [|by apply settle_lookup|cbn [self]; rewrite D5; reflexivity|exact H5'].
  simpl mbind. rewrite settle_settle.
  pose proof (Hdf 5%nat _ _ _ eq_refl H5' D5) as D6. simpl in D6.
  unfold fire_all. simpl foldl. simpl mbind. simpl fire.
  rewrite list_lookup_insert_eq by done. cbn [self env].
  rewrite D6, bool_decide_eq_true_2 by done.
  rewrite settle_settle. do 2 f_equal.
  rewrite insert_app_r_alt by done. rewrite Nat.sub_diag. simpl.
  by rewrite D0.
Qed.



(** * Further properties *)

(** ** Telling examples *)

Lemma merge_examples_cons own ex exs :
  merge_examples own (ex :: exs) =
  merge_examples (if bool_decide (ex ∈ own) then own else own ++ [ex]) exs.
Proof. reflexivity. Qed.

Lemma merge_examples_prefix own exs : own `prefix_of` merge_examples own exs.
Proof.
  revert own. induction exs as [|ex exs IH]; intros own; [done|].
  rewrite merge_examples_cons. etransitivity; [|apply IH].
  case_bool_decide; [done|]. by apply prefix_app_r.
Qed.

Lemma merge_examples_elem own exs x :
  x ∈ merge_examples own exs ↔ x ∈ own ∨ x ∈ exs.
Proof.
  revert own. induction exs as [|ex exs IH]; intros own.
  - simpl. rewrite elem_of_nil. tauto.
  - rewrite merge_examples_cons, IH, elem_of_cons. case_bool_decide as Hin.
    + split; [tauto|]. intros [?|[->|?]]; tauto.
    + rewrite elem_of_app, list_elem_of_singleton. tauto.
Qed.

Lemma merge_examples_absorb own exs :
  (∀ x, x ∈ exs → x ∈ own) → merge_examples own exs = own.
Proof.
  induction exs as [|ex exs IH]; intros Hin; [done|].
  rewrite merge_examples_cons, bool_decide_eq_true_2
    by (apply Hin, elem_of_cons; tauto).
  apply IH. intros x Hx. apply Hin, elem_of_cons. tauto.
Qed.

Lemma merge_examples_append own exs :
  NoDup exs → (∀ x, x ∈ exs → x ∉ own) → merge_examples own exs = own ++ exs.
Proof.
  revert own. induction exs as [|ex exs IH]; intros own Hnd Hnew.
  - by rewrite app_nil_r.
  - apply NoDup_cons in Hnd as [Hex Hnd].
    rewrite merge_examples_cons, bool_decide_eq_false_2
      by (apply Hnew, elem_of_cons; tauto).
    rewrite IH, <- app_assoc; [done|done|].
    intros x Hx [Hown|Hx']%elem_of_app.
    + apply (Hnew x); [apply elem_of_cons; tauto|done].
    + apply list_elem_of_singleton in Hx' as ->. done.
Qed.




(** ** What no method changes *)

Lemma stable_weaken {A} (R R' : relation state) (c : M A) :
  (∀ s s', R s s' → R' s s') → stable R c → stable R' c.
Proof. intros HR Hc s. apply HR, Hc. Qed.

Lemma stable_save_block (R : relation state) `{!PreOrder R} df :
  (∀ s s', quiet s s' → R s s') → stable R (block (save_block df)).
Proof.
  intros HR. apply stable_block; [done|]. apply Forall_forall. intros c Hc.
  apply list_elem_of_lookup_1 in Hc as [k Hk].
  apply (stable_weaken quiet); [done|]. by eapply quiet_statement.
Qed.

Lemma same_clock_locks__save_data : stable same_clock_locks _save_data.
Proof.
  unfold _save_data. scl_go. apply Lock_same_clock_locks.
  apply stable_save_block; [apply _|]. by intros s s' (_ & _ & ? & ?).
Qed.

Lemma same_clock_locks__set_reward reward_type value :
  stable same_clock_locks (_set_reward reward_type value).
Proof.
  unfold _set_reward, _got_reward, is_serving. scl_go.
  apply same_clock_locks__save_data.
Qed.

(** X4: every method leaves the locks as it found them, however it ends:
    a lock that a method takes is released when the method returns or
    raises.  No method touches the clock. *)
Theorem methods_release_locks (c : call) (s : state) :
  is_method c = true →
  locked (env (perform c s).2) = locked (env s) ∧
  now (env (perform c s).2) = now (env s).
Proof.
  intros Hmethod.
  destruct (local_call c) eqn:Hlocal; [by apply same_clock_locks_local|].
  destruct c; try discriminate Hlocal; try discriminate Hmethod; simpl.
  - apply same_clock_locks__set_reward.
  - apply same_clock_locks__set_reward.
  - apply same_clock_locks__save_data.
Qed.

Lemma same_session__save_data : stable same_session _save_data.
Proof.
  unfold _save_data, Lock, lock_acquire, os_path_exists.
  stable_go; try (by split).
  apply stable_save_block; [apply _|]. by intros s s' (? & ? & _).
Qed.

Lemma same_session_perform c : stable same_session (perform c).
Proof.
  destruct c; simpl.
  - apply same_session_reload.
  - unfold run, run_backend. stable_go; by split.
  - unfold run_backend. stable_go; by split.
  - unfold _param, _got_reward, call_backend_param. stable_go; by split.
  - unfold remember, _got_reward. stable_go; by split.
  - unfold minimize, _set_reward, _got_reward, is_serving.
    stable_go; try (by split); apply same_session__save_data.
  - unfold maximize, _set_reward, _got_reward, is_serving.
    stable_go; try (by split); apply same_session__save_data.
  - unfold tell_examples. stable_go; by split.
  - unfold get_data. stable_go; by split.
  - unfold _load_data, ensure_file, Lock, lock_acquire, os_path_exists,
      _load_from, df_read, _loads, tell_examples.
    stable_go; by split.
  - apply same_session__save_data.
  - stable_go; by split.
Qed.

(** X5: the file name and the protocol of a session, and with them the
    path of its data file, are fixed once the session is constructed:
    whatever is called, and whatever happens elsewhere, they stay. *)
Theorem data_file_fixed (cs : list call) (s : state) :
  let s' := perform_all cs s in
  _file (self s') = _file (self s) ∧
  _protocol (self s') = _protocol (self s) ∧
  data_file (self s') = data_file (self s).
Proof.
  simpl. assert (same_session s (perform_all cs s)) as [Hf Hp].
  { revert s. induction cs as [|c cs IH]; intros s; [done|].
    simpl. etransitivity; [apply (same_session_perform c s)|apply IH]. }
  repeat split; [done..|]. unfold data_file, _use_json. by rewrite Hf, Hp.
Qed.

#[local] Instance same_env_preorder : PreOrder same_env.
Proof.
  split; [by intros ?|]. intros x y z Hxy Hyz. unfold same_env in *. congruence.
Qed.

(** X6: declaring a parameter, remembering, selecting a strategy, telling
    examples and [get_data] work in memory only: files, locks, clock and log
    are as before, also when the call raises. *)
Theorem silent_calls_leave_world (c : call) (s : state) :
  silent_call c = true → env (perform c s).2 = env s.
Proof.
  intros Hsilent. change (same_env s (perform c s).2). revert s.
  change (stable same_env (perform c)).
  destruct c; try discriminate Hsilent; simpl.
  - unfold run, run_backend. stable_go; done.
  - unfold run_backend. stable_go; done.
  - unfold _param, _got_reward, call_backend_param. stable_go; done.
  - unfold remember, _got_reward. stable_go; done.
  - unfold tell_examples. stable_go; done.
  - unfold get_data. stable_go; done.
Qed.

(** ** Invariants of the run *)

Lemma bind_get_run {B} attr (k : run_state → M B) s r :
  the_run (self s) = Some r → bind (get_run attr) k s = k r s.
Proof. intros Hr. unfold get_run. munfold. simpl. by rewrite Hr. Qed.

Lemma bind_get_run_None {B} attr (k : run_state → M B) s :
  the_run (self s) = None →
  bind (get_run attr) k s = (Raise (AttributeError attr), s).
Proof. intros Hr. unfold get_run. munfold. simpl. by rewrite Hr. Qed.

Lemma bind_lift {A B} (o : outcome A) (k : A → M B) s :
  bind (lift o) k s = match o with Ok a => k a s | Raise e => (Raise e, s) end.
Proof. by destruct o. Qed.

Lemma call_backend_param_run n func args kwargs s r :
  the_run (self s) = Some r →
  call_backend_param n func args kwargs s =
  ((backend_param (backend r) n func args kwargs).1,
   State (set_run (Some (set_backend
                           (backend_param (backend r) n func args kwargs).2 r))
            (self s)) (env s)).
Proof.
  intros Hr. unfold call_backend_param. rewrite (bind_get_run _ _ s r Hr).
  destruct (backend_param (backend r) n func args kwargs) as [[v|e] b]; done.
Qed.

Lemma same_run_lock_acquire path mode : stable same_run (lock_acquire path mode).
Proof. unfold lock_acquire, os_path_exists. stable_go; done. Qed.

Lemma same_run__load_data : stable same_run _load_data.
Proof.
  unfold _load_data, ensure_file, Lock, lock_acquire, os_path_exists,
    _load_from, df_read, _loads, tell_examples.
  stable_go; done.
Qed.

Lemma same_run_after_stamp df : stable same_run (block (tail (save_block df))).
Proof.
  apply stable_block; [apply _|]. simpl.
  repeat match goal with |- Forall _ _ => constructor end.
  - by apply (same_run_statement df 0).
  - by apply (same_run_statement df 1).
  - by apply (same_run_statement df 2).
  - by apply (same_run_statement df 3).
  - by apply (same_run_statement df 4).
Qed.

Lemma got_reward_insert_ne k v r :
  k ≠ "loss" → k ≠ "gain" →
  got_reward (set_current_example (<[k := v]> (_current_example r)) r) =
  got_reward r.
Proof.
  intros Hl Hg. unfold got_reward. simpl. by rewrite !lookup_insert_ne.
Qed.

Lemma got_reward_insert k v r :
  k = "loss" ∨ k = "gain" →
  got_reward (set_current_example (<[k := v]> (_current_example r)) r) = true.
Proof.
  intros [->| ->]; unfold got_reward; simpl.
  - rewrite lookup_insert_eq. by rewrite bool_decide_eq_true_2 by (by eexists).
  - rewrite (lookup_insert_eq _ "gain").
    rewrite (bool_decide_eq_true_2 (is_Some (Some v))) by (by eexists).
    apply orb_true_r.
Qed.

(** A property [J] of the run that the elementary updates keep is kept by
    every method. [G] is what the update by the timestamp may rely on. *)
Section RunInvariant.
Context (J : option run_state → Prop) (G : run_state → bool).
Context
  (J_start : ∀ b, J (Some (RunState b ∅ {[ "values" := PDict ∅ ]})))
  (J_backend : ∀ r b, J (Some r) → J (Some (set_backend b r)))
  (J_define : ∀ r n d, J (Some r) →
     match _current_example r !! "values" with
     | Some (PDict _) => True
     | _ => J (Some (set_new_params (<[n := d]> (_new_params r)) r))
     end)
  (J_declare : ∀ r n d v values, J (Some r) →
     _current_example r !! "values" = Some (PDict values) →
     J (Some (RunState (backend r) (<[n := d]> (_new_params r))
                (<["values" := PDict (<[n := v]> values)]>
                   (_current_example r)))))
  (J_memo : ∀ r m, J (Some r) →
     J (Some (set_current_example (<["memo" := m]> (_current_example r)) r)))
  (J_reward : ∀ r k v, k = "loss" ∨ k = "gain" → J (Some r) →
     J (Some (set_current_example (<[k := v]> (_current_example r)) r)))
  (G_reward : ∀ r k v, k = "loss" ∨ k = "gain" →
     G (set_current_example (<[k := v]> (_current_example r)) r) = true)
  (J_stamp : ∀ r t, J (Some r) → G r = true →
     J (Some (set_current_example
                (<["timestamp" := PNum t]> (_current_example r)) r))).

Abbreviation kept := (stable (carries (λ s : state, J (the_run (self s))))).

Lemma kept_same_run {A} (c : M A) : stable same_run c → kept c.
Proof. intros Hc s HJ. specialize (Hc s). unfold same_run in Hc. by rewrite Hc. Qed.

Lemma kept_run_backend name args options : kept (run_backend name args options).
Proof.
  intros s HJ. unfold run_backend. rewrite bind_gets, bind_lift.
  destruct (init_backend _ _ _ _ _); [apply J_start|done].
Qed.

Lemma kept_run alg : kept (run alg).
Proof.
  unfold run. destruct (alg_registry alg) as [[name options]|];
    [apply kept_run_backend|by intros s].
Qed.

Lemma kept_reload : kept reload.
Proof.
  unfold reload.
  refine (stable_bind _ _ _ _ _); [|intros _].
  { apply kept_same_run. stable_go; done. }
  refine (stable_bind _ _ _ _ _); [|intros _].
  { apply kept_same_run. stable_go; done. }
  refine (stable_bind _ _ _ _ _); [|intros _].
  { apply kept_same_run, same_run__load_data. }
  apply kept_run.
Qed.

Lemma kept___init__ file protocol : kept (__init__ file protocol).
Proof.
  unfold __init__. destruct file; try by intros s.
  refine (stable_bind _ _ _ _ _); [|intros _].
  { apply kept_same_run. stable_go; done. }
  refine (stable_bind _ _ _ _ _); [|intros _]; [|apply kept_reload].
  apply kept_same_run. unfold os_path_exists. stable_go; done.
Qed.

Lemma kept__param name func args kwargs : kept (_param name func args kwargs).
Proof.
  intros s HJ. unfold carries in *. unfold _param.
  destruct (the_run (self s)) as [r|] eqn:Hr.
  2:{ rewrite (bind_raise _ _ _ _ _ (_got_reward_no_run s Hr)). simpl.
      by rewrite Hr. }
  rewrite (bind_eq _ _ _ _ _ (_got_reward_run s r Hr)).
  destruct (got_reward r); [simpl; by rewrite Hr|].
  destruct name as [|?|n|?|?|?|?|? ?]; try (simpl; by rewrite Hr).
  rewrite (bind_get_run _ _ s r Hr).
  case_bool_decide; [simpl; by rewrite Hr|].
  rewrite bind_lift.
  destruct (standardize_args func args) as [args'|e]; [|simpl; by rewrite Hr].
  rewrite bind_lift.
  destruct (standardize_kwargs kwargs) as [kwargs'|e]; [|simpl; by rewrite Hr].
  unfold bind at 1. rewrite (call_backend_param_run _ _ _ _ s r Hr).
  destruct (backend_param (backend r) n func args' kwargs') as [[value|e] b];
    simpl; [|by apply J_backend].
  pose proof (J_backend r b HJ) as HJ1.
  pose proof (J_define (set_backend b r) n
                (PTuple [PStr func; PTuple args'; PDict kwargs']) HJ1) as HJ2.
  simpl in HJ2.
  erewrite bind_get_run by reflexivity.
  erewrite bind_eq by reflexivity.
  erewrite bind_get_run by reflexivity. simpl.
  destruct (_current_example r !! "values") as [values|] eqn:Hv; [|exact HJ2].
  destruct values; try exact HJ2.
  simpl. by apply (J_declare (set_backend b r)).
Qed.

Lemma kept_remember info : kept (remember info).
Proof.
  intros s HJ. unfold carries in *. unfold remember.
  destruct (the_run (self s)) as [r|] eqn:Hr.
  2:{ rewrite (bind_raise _ _ _ _ _ (_got_reward_no_run s Hr)). simpl.
      by rewrite Hr. }
  rewrite (bind_eq _ _ _ _ _ (_got_reward_run s r Hr)).
  destruct (got_reward r); [simpl; by rewrite Hr|].
  rewrite (bind_get_run _ _ s r Hr).
  erewrite bind_eq by reflexivity.
  erewrite bind_get_run by reflexivity.
  pose proof (J_memo r (default (PDict ∅) (_current_example r !! "memo")) HJ)
    as HJ1.
  destruct (default (PDict ∅) (_current_example r !! "memo"));
    try exact HJ1.
  rewrite bind_lift. destruct (dict_update _ info); [|exact HJ1].
  simpl. by apply (J_memo _ _ HJ1).
Qed.

Lemma kept__save_data s :
  (∀ r, the_run (self s) = Some r → G r = true) →
  J (the_run (self s)) → J (the_run (self (_save_data s).2)).
Proof.
  intros HG HJ. unfold _save_data.
  destruct (the_run (self s)) as [r|] eqn:Hr.
  2:{ rewrite bind_get_run_None by done. simpl. by rewrite Hr. }
  rewrite (bind_get_run _ _ s r Hr).
  case_bool_decide; [simpl; by rewrite Hr|].
  rewrite bind_gets. unfold Lock.
  pose proof (same_run_lock_acquire (data_file (self s)) "rb+" s) as Hacq.
  unfold bind at 1.
  destruct (lock_acquire (data_file (self s)) "rb+" s) as [[[]|e] s1];
    unfold same_run in Hacq; simpl in Hacq; [|simpl; by rewrite Hacq, Hr].
  rewrite Hr in Hacq. unfold finally. cbv beta iota.
  change (save_block (data_file (self s)))
    with (stamp_current_example :: tail (save_block (data_file (self s)))).
  pose proof (kept_same_run _ (same_run_after_stamp (data_file (self s))))
    as Hrest.
  rewrite block_cons.
  erewrite bind_eq by (by apply stamp_current_example_run).
  match goal with |- context [block ?b ?s3] =>
    specialize (Hrest s3); destruct (block b s3) as [o s2] end.
  simpl in *. apply Hrest. apply J_stamp; [done|by apply HG].
Qed.

Lemma kept__set_reward k value :
  k = "loss" ∨ k = "gain" → kept (_set_reward k value).
Proof.
  intros Hk s HJ. unfold carries in *.
  destruct (the_run (self s)) as [r|] eqn:Hr.
  2:{ unfold _set_reward.
      rewrite (bind_raise _ _ _ _ _ (_got_reward_no_run s Hr)). simpl.
      by rewrite Hr. }
  destruct (got_reward r) eqn:Hgot.
  { unfold _set_reward.
    rewrite (bind_eq _ _ _ _ _ (_got_reward_run s r Hr)), Hgot. simpl.
    by rewrite Hr. }
  destruct (reward_value value) as [v|] eqn:Hv.
  - rewrite (_set_reward_run s r k value v Hr Hgot Hv).
    destruct (is_serving_instance (backend r)); [simpl; by apply J_reward|].
    apply kept__save_data; simpl; [|by apply J_reward].
    intros r' Hr'. injection Hr' as <-. by apply G_reward.
  - destruct value; try discriminate Hv. simpl in Hv.
    case_bool_decide as Hrank; [discriminate Hv|].
    rewrite (_set_reward_rejects s r) by done. simpl. by rewrite Hr.
Qed.

Lemma kept_perform c :
  not_save c = true ∨ (∀ r, G r = true) → kept (perform c).
Proof.
  intros Hc. destruct c; simpl.
  - apply kept_reload.
  - apply kept_run.
  - apply kept_run_backend.
  - refine (stable_bind _ _ _ _ _); [apply kept__param|by intros ? ?].
  - apply kept_remember.
  - apply kept__set_reward. by left.
  - apply kept__set_reward. by right.
  - apply kept_same_run. unfold tell_examples. stable_go; done.
  - apply kept_same_run. unfold get_data. stable_go; done.
  - apply kept_same_run, same_run__load_data.
  - destruct Hc as [Hc|HG]; [discriminate Hc|].
    intros s. unfold carries. apply kept__save_data. auto.
  - apply kept_same_run. stable_go; done.
Qed.

Lemma kept_perform_all cs s :
  forallb not_save cs = true ∨ (∀ r, G r = true) →
  J (the_run (self s)) → J (the_run (self (perform_all cs s))).
Proof.
  revert s. induction cs as [|c cs IH]; intros s Hcs HJ; [done|].
  simpl. apply IH.
  - destruct Hcs as [[_ Hcs]%andb_prop|HG]; auto.
  - apply (kept_perform c); [|done].
    destruct Hcs as [[Hc _]%andb_prop|HG]; auto.
Qed.

Lemma kept_session file protocol w cs :
  forallb not_save cs = true ∨ (∀ r, G r = true) →
  J None →
  J (the_run (self (perform_all cs (BlackBoxOptimizer file protocol w).2))).
Proof.
  intros Hcs HJ. apply kept_perform_all; [done|].
  by apply (kept___init__ file protocol (State no_attributes w)).
Qed.

End RunInvariant.

(** X7: at every moment in the life of a session, whatever is called and
    whatever happens to the files in between, the parameters that have a
    value in the current example are the parameters that were declared in
    the current run. *)
Theorem values_follow_declarations (file protocol : pyval) (w : world)
    (cs : list call) :
  values_match_params
    (the_run (self (perform_all cs (BlackBoxOptimizer file protocol w).2))).
Proof.
  apply (kept_session values_match_params (λ _, true)); try done.
  - intros b. exists ∅. simpl. by rewrite lookup_singleton_eq.
  - intros r n d (values & Hv & _). by rewrite Hv.
  - intros r n d v values (values' & Hv' & Hdom) Hv. simpl.
    exists (<[n := v]> values). rewrite lookup_insert_eq. split; [done|].
    rewrite !dom_insert_L. congruence.
  - intros r m (values & Hv & Hdom). exists values.
    simpl. by rewrite lookup_insert_ne.
  - intros r k v Hk (values & Hv & Hdom). exists values.
    simpl. rewrite lookup_insert_ne; [done|]. by destruct Hk as [->| ->].
  - intros r t (values & Hv & Hdom) _. exists values.
    simpl. by rewrite lookup_insert_ne.
  - by right.
Qed.

(** X8: as long as the private [_save_data] is not called from outside, a
    current example has a timestamp only if it has a reward: a run without
    a reward is still declaring, and the assertion at the head of
    [_save_data] finds no timestamp when [minimize] or [maximize] get
    there. *)
Theorem stamped_only_when_rewarded (file protocol : pyval) (w : world)
    (cs : list call) :
  forallb not_save cs = true →
  let s := perform_all cs (BlackBoxOptimizer file protocol w).2 in
  stamped_is_rewarded (the_run (self s)) ∧
  (∀ r, the_run (self s) = Some r → got_reward r = false →
        declaring r = true).
Proof.
  intros Hcs s.
  assert (stamped_is_rewarded (the_run (self s))) as HJ.
  { apply (kept_session stamped_is_rewarded got_reward); try done.
    - intros b. simpl. rewrite lookup_singleton_ne by done. by intros [? ?].
    - intros r n d HJ. simpl. by destruct (_ !! "values") as [[]|].
    - intros r n d v values HJ _. simpl.
      rewrite lookup_insert_ne by done. intros Hts. specialize (HJ Hts).
      unfold got_reward in *. simpl. by rewrite !lookup_insert_ne.
    - intros r m HJ. simpl. rewrite lookup_insert_ne by done. intros Hts.
      by rewrite got_reward_insert_ne; [apply HJ|..].
    - intros r k v Hk _ _. by apply got_reward_insert.
    - intros r k v Hk. by apply got_reward_insert.
    - intros r t _ Hgot _. by rewrite got_reward_insert_ne.
    - by left. }
  split; [done|]. intros r Hr Hgot. rewrite Hr in HJ. simpl in HJ.
  unfold declaring. rewrite Hgot. simpl. apply bool_decide_eq_true_2.
  destruct (_current_example r !! "timestamp") eqn:Hts; [|done].
  rewrite HJ in Hgot; [done|by eexists].
Qed.

(** X9: once a session is constructed it has a current run for good:
    [get_current_run] returns the current example and changes nothing, and
    the error it raises for a missing run is met only on an object that has
    never run. *)
Theorem get_current_run_after_construction (file protocol : pyval) (w : world)
    (cs : list call) :
  (BlackBoxOptimizer file protocol w).1 = Ok tt →
  let s := perform_all cs (BlackBoxOptimizer file protocol w).2 in
  (∃ r, the_run (self s) = Some r ∧
        get_current_run s = (Ok (PDict (_current_example r)), s)) ∧
  get_current_run (State no_attributes w) =
    (Raise (ValueError "get_current_run calls must come after run"),
     State no_attributes w).
Proof.
  intros Hok s. split; [|done].
  assert (is_Some (the_run (self s))) as [r Hr].
  { apply (kept_perform_all is_Some (λ _, true)); try done.
    { intros r n d _. by destruct (_ !! "values") as [[]|]. }
    { by right. }
    clear s. unfold BlackBoxOptimizer in *.
    destruct (__init__ file protocol (State no_attributes w)) as [o s1] eqn:Hb.
    simpl in Hok |- *. subst o. unfold __init__ in Hb.
    destruct file; try discriminate Hb.
    apply bind_Ok_inv in Hb as (? & s2 & _ & Hb).
    apply bind_Ok_inv in Hb as (? & s3 & _ & Hb).
    unfold reload in Hb.
    apply bind_Ok_inv in Hb as (? & s4 & _ & Hb).
    apply bind_Ok_inv in Hb as (? & s5 & _ & Hb).
    apply bind_Ok_inv in Hb as (? & s6 & _ & Hb).
    unfold run in Hb. destruct (alg_registry PNone) as [[name options]|];
      [|discriminate Hb].
    unfold run_backend in Hb. rewrite bind_gets, bind_lift in Hb.
    destruct (init_backend _ _ _ _ _); [|discriminate Hb].
    injection Hb as <-. by eexists. }
  exists r. split; [done|]. unfold get_current_run, get_run. munfold. simpl.
  by rewrite Hr.
Qed.

(** ** The list of examples *)

#[local] Instance examples_grow_preorder : PreOrder examples_grow.
Proof.
  split; unfold examples_grow; [by intros ?|].
  intros x y z Hxy Hyz. by etransitivity.
Qed.

Ltac eg_leaf :=
  unfold examples_grow; simpl;
  first [ reflexivity | apply merge_examples_prefix ].

Ltac eg_go := stable_go; try eg_leaf.

Lemma examples_grow_tell_examples exs : stable examples_grow (tell_examples exs).
Proof. intros s. apply merge_examples_prefix. Qed.

Lemma examples_grow__load_from df : stable examples_grow (_load_from df).
Proof.
  unfold _load_from, df_read, _loads. eg_go. apply examples_grow_tell_examples.
Qed.

Lemma examples_grow__save_data : stable examples_grow _save_data.
Proof.
  unfold _save_data, Lock, lock_acquire, os_path_exists. eg_go.
  apply stable_block; [apply _|]. unfold save_block.
  repeat match goal with |- Forall _ _ => constructor end.
  - unfold stamp_current_example, time_time. eg_go.
  - unfold tell_current_example. eg_go. apply examples_grow_tell_examples.
  - apply examples_grow__load_from.
  - unfold clear_file. eg_go.
  - unfold write_data, get_data, _dumps, df_write. eg_go.
  - unfold sync_file. eg_go.
Qed.

Lemma examples_grow_perform c :
  not_reload c = true → stable examples_grow (perform c).
Proof.
  destruct c; intros Hc; try discriminate Hc; simpl.
  - unfold run, run_backend. eg_go.
  - unfold run_backend. eg_go.
  - unfold _param, _got_reward, call_backend_param. eg_go.
  - unfold remember, _got_reward. eg_go.
  - unfold minimize, _set_reward, _got_reward, is_serving. eg_go.
    apply examples_grow__save_data.
  - unfold maximize, _set_reward, _got_reward, is_serving. eg_go.
    apply examples_grow__save_data.
  - apply examples_grow_tell_examples.
  - unfold get_data. eg_go.
  - unfold _load_data, ensure_file, Lock, lock_acquire, os_path_exists. eg_go.
    apply examples_grow__load_from.
  - apply examples_grow__save_data.
  - eg_go.
Qed.


(** ** Starting a run *)


(** ** What construction does to the world *)

#[local] Instance same_files_preorder : PreOrder same_files.
Proof.
  split; [by intros ?|]. intros x y z Hxy Hyz. unfold same_files in *.
  congruence.
Qed.

Lemma select_protocol_run protocol o w :
  ∃ o',
    match protocol with
    | PNone =>
        do! on_self (set_protocol (PStr "json")) in
        let! path := gets (λ s, data_file (self s)) in
        let! there := os_path_exists path in
        if negb there then on_self (set_protocol default_protocol) else ret tt
    | _ => on_self (set_protocol protocol)
    end (State o w) = (Ok tt, State o' w) ∧ _examples o' = _examples o.
Proof.
  destruct protocol; try (eexists; split; [reflexivity|done]).
  unfold os_path_exists. munfold. simpl.
  case_bool_decide; simpl; (eexists; split; [reflexivity|done]).
Qed.

Lemma same_files_Lock_load path mode :
  stable same_files (Lock path mode (_load_from path)).
Proof.
  unfold Lock, lock_acquire, os_path_exists, _load_from, df_read, _loads,
    tell_examples.
  stable_go; done.
Qed.

Lemma NoDup__load_data :
  stable (carries (λ s, NoDup (_examples (self s)))) _load_data.
Proof.
  unfold _load_data, ensure_file, Lock, lock_acquire, os_path_exists,
    _load_from, df_read, _loads, tell_examples.
  stable_go; try (by intros ?). intros Hnd. simpl. by apply merge_examples_NoDup.
Qed.

Lemma reload_files s :
  let path := data_file (self s) in
  files (env (reload s).2) =
  if bool_decide (is_Some (files (env s) !! path)) then files (env s)
  else <[path := ""]> (files (env s)).
Proof.
  intros path. unfold reload. do 2 (erewrite bind_eq by reflexivity).
  cbn [self env].
  set (s0 := State (set_examples [] (set_old_params (PDict ∅) (self s))) (env s)).
  assert (files (env (_load_data s0).2) =
          if bool_decide (is_Some (files (env s) !! path)) then files (env s)
          else <[path := ""]> (files (env s))) as Hload.
  { unfold _load_data. rewrite bind_gets.
    erewrite bind_eq by apply ensure_file_run.
    match goal with |- context [Lock ?p ?m ?b ?s1] =>
      rewrite (same_files_Lock_load p m s1) end.
    simpl.
    change (data_file (set_examples [] (set_old_params (PDict ∅) (self s))))
      with path.
    by case_bool_decide. }
  unfold bind at 1. destruct (_load_data s0) as [[[]|e] s1]; [|done].
  simpl in Hload. rewrite <- Hload.
  pose proof (same_history_run PNone s1) as (_ & _ & Hfiles). done.
Qed.

(** X12: constructing a session creates its data file, empty, if there is
    none, and changes no other file and no contents; locks and clock are as
    before.  A file name that is not a string is a [TypeError] before
    anything is done.  When the construction succeeds, the strategy of the
    default algorithm was initialised with the history just loaded, and the
    run is a fresh one. *)
Theorem construction_effect (file protocol : pyval) (w : world) :
  let r := BlackBoxOptimizer file protocol w in
  (is_Str file = false →
   r = (Raise (TypeError "file must be a string"), State no_attributes w)) ∧
  (is_Str file = true →
   let path := data_file (self r.2) in
   files (env r.2) =
     (if bool_decide (is_Some (files w !! path)) then files w
      else <[path := ""]> (files w)) ∧
   locked (env r.2) = locked w ∧ now (env r.2) = now w ∧
   NoDup (_examples (self r.2))) ∧
  (r.1 = Ok tt →
   ∃ name options b,
     alg_registry PNone = Some (name, options) ∧
     init_backend name (_examples (self r.2)) (_old_params (self r.2)) []
       options = Ok b ∧
     the_run (self r.2) = Some (RunState b ∅ {[ "values" := PDict ∅ ]})).
Proof.
  simpl. split; [by destruct file|]. split.
  - destruct file as [|?|f|?|?|?|?|? ?]; try discriminate 1. intros _.
    unfold BlackBoxOptimizer, __init__. erewrite bind_eq by reflexivity.
    destruct (select_protocol_run protocol (set_file (norm_path f) no_attributes) w)
      as (o & Hsel & _).
    erewrite bind_eq by exact Hsel.
    destruct (same_session_reload (State o w)) as [Hf Hp].
    assert (data_file (self (reload (State o w)).2) = data_file o) as ->.
    { unfold data_file, _use_json. by rewrite Hf, Hp. }
    split; [apply (reload_files (State o w))|].
    destruct (same_clock_locks_local Reload eq_refl (State o w)) as [Hl Hn].
    split; [done|]. split; [done|].
    unfold reload. do 2 (erewrite bind_eq by reflexivity).
    match goal with |- context [bind _load_data ?k ?s0] =>
      pose proof (NoDup__load_data s0 (NoDup_nil_2 : NoDup (_examples (self s0))))
        as Hnd;
      unfold bind at 1; destruct (_load_data s0) as [[[]|e] s1]; [|done] end.
    simpl in Hnd.
    by pose proof (same_history_run PNone s1) as (_ & -> & _).
  - intros Hok. unfold BlackBoxOptimizer in *.
    destruct (__init__ file protocol (State no_attributes w)) as [o s1] eqn:Hb.
    simpl in Hok |- *. subst o. unfold __init__ in Hb.
    destruct file; try discriminate Hb.
    apply bind_Ok_inv in Hb as (? & s2 & _ & Hb).
    apply bind_Ok_inv in Hb as (? & s3 & _ & Hb).
    unfold reload in Hb.
    apply bind_Ok_inv in Hb as (? & s4 & _ & Hb).
    apply bind_Ok_inv in Hb as (? & s5 & _ & Hb).
    apply bind_Ok_inv in Hb as (? & s6 & _ & Hb).
    unfold run in Hb.
    destruct (alg_registry PNone) as [[name options]|]; [|discriminate Hb].
    exists name, options.
    unfold run_backend in Hb. rewrite bind_gets, bind_lift in Hb.
    destruct (init_backend _ _ _ _ _) as [b|] eqn:Hinit; [|discriminate Hb].
    exists b. injection Hb as <-. done.
Qed.

(** ** Commits that do not go through *)

Lemma _save_data_stamped s r contents :
  the_run (self s) = Some r →
  _current_example r !! "timestamp" = None →
  files (env s) !! data_file (self s) = Some contents →
  data_file (self s) ∉ locked (env s) →
  _save_data s =
  let path := data_file (self s) in
  let cur := <["timestamp" := PNum (now (env s))]> (_current_example r) in
  let s2 :=
    State (set_examples (merge_examples (_examples (self s)) [PDict cur])
             (set_run (Some (set_current_example cur r)) (self s)))
          (emit (EvTime (now (env s)))
             (emit (EvLockAcquired path)
                (set_locked ({[path]} ∪ locked (env s))
                   (emit (EvLockRequest path "rb+") (env s))))) in
  let (o, s') :=
    block [_load_from path; clear_file path; write_data path; sync_file path]
      s2 in
  (o, release path s').
Proof.
  intros Hr Hts Hfile Hfree. unfold _save_data.
  rewrite (bind_get_run _ _ s r Hr).
  rewrite bool_decide_eq_false_2 by (rewrite Hts; by intros [? ?]).
  rewrite bind_gets.
  rewrite Lock_acquired by (done || by rewrite Hfile).
  unfold save_block. rewrite block_cons.
  erewrite bind_eq; [|by apply stamp_current_example_run].
  rewrite block_cons.
  erewrite bind_eq; [|by apply tell_current_example_run].
  reflexivity.
Qed.

Lemma _load_from_fails df s contents e :
  files (env s) !! df = Some contents →
  fresh_history (self s) contents = Raise e →
  ∃ o', _load_from df s = (Raise e, State o' (emit (EvRead df) (env s))) ∧
        _examples o' = _examples (self s) ∧
        the_run o' = the_run (self s).
Proof.
  intros Hfile Hfresh. unfold _load_from, df_read, _loads, tell_examples.
  unfold fresh_history in Hfresh. munfold. simpl. rewrite Hfile. simpl.
  case_bool_decide; [done|].
  destruct (loads_of (self s) contents) as [v|e'] eqn:Hv.
  - destruct (match_history v) as [[params' examples]|] eqn:Hm.
    + destruct (py_iter examples) as [exs'|e'] eqn:Hit; [done|].
      injection Hfresh as <-. cbv beta. simpl. rewrite Hv, Hm. simpl.
      rewrite Hit. by eexists.
    + injection Hfresh as <-. cbv beta. simpl. rewrite Hv, Hm.
      by eexists.
  - injection Hfresh as <-. cbv beta. simpl. rewrite Hv. by eexists.
Qed.

Lemma write_data_fails df s r e :
  the_run (self s) = Some r →
  match _old_params (self s) with
  | PDict fp =>
      dumps_of (self s)
        (history (PDict (_new_params r ∪ fp)) (_examples (self s))) = Raise e
  | _ => e = AttributeError "update"
  end →
  ∃ o', write_data df s = (Raise e, State o' (env s)) ∧
        _examples o' = _examples (self s).
Proof.
  intros Hr Hfail. unfold write_data, get_data, _dumps, df_write.
  destruct s as [o w]. munfold. simpl in *.
  destruct (_old_params o) eqn:Hold; simpl; try (subst e; by eexists).
  rewrite Hr. simpl. rewrite (dumps_of_protocol _ o) by done.
  rewrite Hfail. by eexists.
Qed.



(** X15: when the data file is missing, or its lock is held elsewhere,
    [minimize] and [maximize] raise after the reward is stored: no file and
    no example changes, the current example has its reward but no timestamp,
    and since the run now counts as rewarded a second call cannot commit it
    either. *)
Theorem reward_without_lock (s : state) (r : run_state) (reward_type : string)
    (value v : pyval) :
  let path := data_file (self s) in
  let s' := State (self (store_reward reward_type v r s))
                  (emit (EvLockRequest path "rb+") (env s)) in
  the_run (self s) = Some r →
  declaring r = true →
  reward_type = "loss" ∨ reward_type = "gain" →
  reward_value value = Some v →
  is_serving_instance (backend r) = false →
  (files (env s) !! path = None →
   _set_reward reward_type value s = (Raise (FileNotFoundError path), s')) ∧
  (is_Some (files (env s) !! path) → path ∈ locked (env s) →
   _set_reward reward_type value s = (Raise (LockException path), s')) ∧
  files (env s') = files (env s) ∧
  _examples (self s') = _examples (self s) ∧
  example_stamp (self s') = None ∧
  rewarded s' = true ∧
  (∀ reward_type' value',
     _set_reward reward_type' value' s' =
     (Raise (ValueError "only one call to maximize or minimize is allowed"), s')).
Proof.
  intros path s' Hr [Hgot Hts]%andb_prop Hkind Hv Hserving.
  apply negb_true_iff in Hgot. apply bool_decide_eq_true in Hts.
  assert (Hne : reward_type ≠ "timestamp") by (destruct Hkind; by subst).
  assert (Henter : ∀ o w,
    Lock path "rb+" (block (save_block path)) (store_reward reward_type v r s)
      = (o, w) →
    _set_reward reward_type value s = (o, w)).
  { intros o w HLock.
    rewrite (_set_reward_run s r reward_type value v Hr Hgot Hv), Hserving.
    unfold _save_data. erewrite bind_get_run by reflexivity. simpl.
    rewrite lookup_insert_ne by done.
    rewrite bool_decide_eq_false_2 by (rewrite Hts; by intros [? ?]).
    rewrite bind_gets. exact HLock. }
  split; [|split].
  - intros Hnone. apply Henter. by rewrite Lock_no_file.
  - intros Hthere Hheld. apply Henter. by rewrite Lock_timeout.
  - assert (Hrewarded : rewarded s' = true).
    { unfold rewarded. simpl. by apply got_reward_insert. }
    repeat split; try done.
    + unfold example_stamp. simpl. by rewrite lookup_insert_ne, Hts.
    + intros reward_type' value'. unfold _set_reward.
      erewrite bind_eq by (by apply _got_reward_run).
      unfold rewarded in Hrewarded. simpl in Hrewarded. by rewrite Hrewarded.
Qed.

(** ** What is committed is what is loaded *)

Lemma _save_data_commits s r contents raw fp fes :
  let path := data_file (self s) in
  let cur := <["timestamp" := PNum (now (env s))]> (_current_example r) in
  let merged :=
    merge_examples (merge_examples (_examples (self s)) [PDict cur]) fes in
  let params := _new_params r ∪ fp in
  the_run (self s) = Some r →
  _current_example r !! "timestamp" = None →
  files (env s) !! path = Some contents →
  path ∉ locked (env s) →
  fresh_history (self s) contents = Ok (PDict fp, fes) →
  dumps_of (self s) (history (PDict params) merged) = Ok raw →
  ∃ s', _save_data s = (Ok tt, s') ∧
        _examples (self s') = merged ∧
        _old_params (self s') = PDict params ∧
        the_run (self s') = Some (set_current_example cur r) ∧
        files (env s') = <[path := raw]> (files (env s)) ∧
        locked (env s') = locked (env s) ∧
        now (env s') = now (env s).
Proof.
  intros path cur merged params Hr Hts Hfile Hfree Hfresh Hdumps.
  rewrite (_save_data_stamped s r contents) by done. cbv zeta. fold path cur.
  rewrite block_cons.
  erewrite bind_eq; [|by eapply _load_from_run].
  rewrite block_cons.
  erewrite bind_eq; [|reflexivity].
  rewrite block_cons.
  erewrite bind_eq.
  2:{ eapply write_data_run; simpl; [reflexivity|reflexivity|].
      erewrite dumps_of_protocol; [exact Hdumps|done]. }
  simpl. eexists. split; [reflexivity|]. simpl. repeat split.
  - rewrite lookup_insert_eq. simpl. by rewrite insert_insert_eq.
  - by apply acquire_release.
Qed.


(** ** What a declaration records *)

Lemma _param_Ok_inv (name : pyval) (func : string) (args : list pyval)
    (kwargs : gmap string pyval) (s : state) (value : pyval) :
  (_param name func args kwargs s).1 = Ok value →
  ∃ n r args' kwargs' values b,
    name = PStr n ∧
    the_run (self s) = Some r ∧
    got_reward r = false ∧
    (n ∉ dom (_new_params r)) ∧
    standardize_args func args = Ok args' ∧
    standardize_kwargs kwargs = Ok kwargs' ∧
    backend_param (backend r) n func args' kwargs' = (Ok value, b) ∧
    _current_example r !! "values" = Some (PDict values) ∧
    (_param name func args kwargs s).2 =
      State (set_run
               (Some (RunState b
                        (<[n := PTuple [PStr func; PTuple args'; PDict kwargs']]>
                           (_new_params r))
                        (<["values" := PDict (<[n := value]> values)]>
                           (_current_example r))))
               (self s))
            (env s).
Proof.
  intros Hok.
  destruct (_param name func args kwargs s) as [o s'] eqn:Hp.
  simpl in Hok |- *. subst o. unfold _param in Hp.
  destruct (the_run (self s)) as [r|] eqn:Hr.
  2:{ by rewrite (bind_raise _ _ _ _ _ (_got_reward_no_run s Hr)) in Hp. }
  rewrite (bind_eq _ _ _ _ _ (_got_reward_run s r Hr)) in Hp.
  destruct (got_reward r) eqn:Hgot; [done|].
  destruct name as [|?|n|?|?|?|?|? ?]; try done.
  rewrite (bind_get_run _ _ s r Hr) in Hp.
  case_bool_decide as Hn; [done|].
  rewrite bind_lift in Hp.
  destruct (standardize_args func args) as [args'|e] eqn:Hargs; [|done].
  rewrite bind_lift in Hp.
  destruct (standardize_kwargs kwargs) as [kwargs'|e] eqn:Hkwargs; [|done].
  unfold bind at 1 in Hp. rewrite (call_backend_param_run _ _ _ _ s r Hr) in Hp.
  destruct (backend_param (backend r) n func args' kwargs') as [[v|e] b]
    eqn:Hb; simpl in Hp; [|done].
  erewrite bind_get_run in Hp by reflexivity.
  erewrite bind_eq in Hp by reflexivity.
  erewrite bind_get_run in Hp by reflexivity. simpl in Hp.
  destruct (_current_example r !! "values") as [values|] eqn:Hv; [|done].
  destruct values as [| | | | |values| |]; try done.
  simpl in Hp. injection Hp as -> <-.
  by exists n, r, args', kwargs', values, b.
Qed.

(** X17: whenever [_param] returns a value, the name is a string that was
    not declared in this run, the value is the one the strategy gave for the
    standardized arguments, and exactly two things are recorded under the
    name: the definition (function, standardized arguments and keywords)
    and the value.  Nothing else of the session changes but the state of
    the strategy. *)
Theorem param_recorded (name : pyval) (func : string) (args : list pyval)
    (kwargs : gmap string pyval) (s : state) (value : pyval) :
  (_param name func args kwargs s).1 = Ok value →
  let s' := (_param name func args kwargs s).2 in
  ∃ n r r' args' kwargs' values values',
    name = PStr n ∧
    the_run (self s) = Some r ∧ the_run (self s') = Some r' ∧
    got_reward r = false ∧
    (n ∉ dom (_new_params r)) ∧
    standardize_args func args = Ok args' ∧
    standardize_kwargs kwargs = Ok kwargs' ∧
    (backend_param (backend r) n func args' kwargs').1 = Ok value ∧
    _current_example r !! "values" = Some (PDict values) ∧
    _current_example r' !! "values" = Some (PDict values') ∧
    _new_params r' =
      <[n := PTuple [PStr func; PTuple args'; PDict kwargs']]> (_new_params r) ∧
    values' = <[n := value]> values ∧
    (∀ k, k ≠ "values" → _current_example r' !! k = _current_example r !! k) ∧
    _examples (self s') = _examples (self s) ∧
    _old_params (self s') = _old_params (self s) ∧
    env s' = env s.
Proof.
  intros Hok s'.
  destruct (_param_Ok_inv name func args kwargs s value Hok)
    as (n & r & args' & kwargs' & values & b & -> & Hr & Hgot & Hn & Hargs &
        Hkwargs & Hb & Hv & Hs').
  subst s'. rewrite Hs'. simpl.
  eexists n, r, _, args', kwargs', values, _.
  repeat split; try done.
  - by rewrite Hb.
  - simpl. by rewrite lookup_insert_eq.
  - intros k Hk. simpl. by rewrite lookup_insert_ne.
Qed.

(** ** Remembering *)

Lemma remember_run s r m info :
  the_run (self s) = Some r →
  got_reward r = false →
  default (PDict ∅) (_current_example r !! "memo") = PDict m →
  remember info s =
  match dict_update m info with
  | Ok m' =>
      (Ok tt,
       State (set_run (Some (set_current_example
                               (<["memo" := PDict m']> (_current_example r)) r))
                (self s)) (env s))
  | Raise e =>
      (Raise e,
       State (set_run (Some (set_current_example
                               (<["memo" := PDict m]> (_current_example r)) r))
                (self s)) (env s))
  end.
Proof.
  intros Hr Hgot Hm. unfold remember.
  rewrite (bind_eq _ _ _ _ _ (_got_reward_run s r Hr)), Hgot.
  rewrite (bind_get_run _ _ s r Hr), Hm.
  erewrite bind_eq by reflexivity.
  erewrite bind_get_run by reflexivity.
  rewrite bind_lift. destruct (dict_update m info) as [m'|e]; [|done].
  simpl. unfold put_run, on_self, modify, set_current_example, set_run. simpl.
  by rewrite insert_insert_eq.
Qed.

(** X18: [remember] merges the information into the memo of the current
    example, the new entry winning under a key that is there already, and two
    calls add up.  Information that is not a mapping raises, but only after
    the memo was created: an empty memo is then left in the example. *)
Theorem remember_accumulates (s : state) (r : run_state)
    (i1 i2 : gmap string pyval) :
  the_run (self s) = Some r →
  got_reward r = false →
  _current_example r !! "memo" = None →
  let memo_of (s' : state) :=
    the_run (self s') ≫= λ r', _current_example r' !! "memo" in
  let s1 := (remember (PDict i1) s).2 in
  let s2 := (remember (PDict i2) s1).2 in
  (remember (PDict i1) s).1 = Ok tt ∧
  memo_of s1 = Some (PDict i1) ∧
  (remember (PDict i2) s1).1 = Ok tt ∧
  memo_of s2 = Some (PDict (i2 ∪ i1)) ∧
  (∀ k, (i2 ∪ i1) !! k = match i2 !! k with
                         | Some x => Some x
                         | None => i1 !! k
                         end) ∧
  env s2 = env s ∧
  is_Raise (remember PNone s).1 = true ∧
  memo_of (remember PNone s).2 = Some (PDict ∅).
Proof.
  intros Hr Hgot Hmemo memo_of s1 s2.
  assert (Hm : default (PDict ∅) (_current_example r !! "memo") = PDict ∅)
    by by rewrite Hmemo.
  pose proof (remember_run s r ∅ (PDict i1) Hr Hgot Hm) as H1'.
  simpl in H1'. rewrite (right_id_L ∅ (∪)) in H1'.
  pose proof (remember_run s r ∅ PNone Hr Hgot Hm) as H3. simpl in H3.
  subst s1 s2 memo_of. rewrite H1', H3. cbn [fst snd].
  erewrite (remember_run _ _ i1 (PDict i2)); [|reflexivity|..].
  2:{ by rewrite got_reward_insert_ne. }
  2:{ simpl. by rewrite lookup_insert_eq. }
  simpl. rewrite !lookup_insert_eq. repeat split.
  intros k. rewrite lookup_union. by destruct (i2 !! k), (i1 !! k).
Qed.

(** ** One commit at a time *)

(** X19: in every run of a system of processes that starts without locks,
    no two processes are inside a commit on the same data file at the same
    moment, and no committed timestamp is later than the clock, as long as
    the clock does not go backwards. *)
Theorem commits_exclusive (clock_ok : Z → Z → bool) (acts : list action)
    (sys0 sys : system) :
  (∀ t t', clock_ok t t' = true → t ≤ t') →
  initial sys0 = true →
  fire_all clock_ok acts sys0 = Some sys →
  exclusive (procs sys) ∧
  (∀ a q t, acquired sys !! a = Some (q, Some t) → t ≤ now (shared sys)).
Proof.
  intros Hclock Hinit Hfire.
  destruct (fire_all_inv clock_ok acts sys0 sys Hclock Hfire (initial_inv _ Hinit))
    as (J1 & _ & _ & J4).
  done.
Qed.

(** ** Sampling *)

Section SamplingProperties.
Context `{ParamProcessor}.

Lemma list_pop_Ok pop ind x rest :
  list_pop pop ind = XOk (x, rest) → pop ≡ₚ x :: rest.
Proof.
  unfold list_pop. destruct (py_index ind) as [z|]; [|done]. cbv zeta.
  destruct (_ && _); [|done].
  destruct (pop !! _) as [y|] eqn:Hy; [|done]. intros [= -> <-].
  by apply delete_Permutation.
Qed.

Lemma sample_loop_S n kwargs i todo pop acc s :
  sample_loop n kwargs i (S todo) pop acc s =
  if bool_decide (length pop ≤ 1)%nat then
    match head pop with
    | Some x => sample_loop n kwargs (S i) todo pop (acc ++ [x]) s
    | None => (XRaise (IndexError "list index out of range"), s)
    end
  else
    match modify_kwargs (index_or_zero pop i) kwargs with
    | XOk proc_kwargs =>
        match randrange (PStr (cell_name n i)) [PNum (Z.of_nat (length pop))]
                proc_kwargs s with
        | (Ok ind, s') =>
            match list_pop pop ind with
            | XOk (x, rest) => sample_loop n kwargs (S i) todo rest (acc ++ [x]) s'
            | XRaise e => (XRaise e, s')
            end
        | (Raise e, s') => (XRaise (Exn e), s')
        end
    | XRaise e => (XRaise e, s)
    end.
Proof. reflexivity. Qed.

Lemma sample_loop_single n kwargs x todo i acc s :
  sample_loop n kwargs i todo [x] acc s = (XOk (acc ++ replicate todo x), s).
Proof.
  revert i acc. induction todo as [|todo IH]; intros i acc.
  - simpl. by rewrite app_nil_r.
  - rewrite sample_loop_S, bool_decide_eq_true_2 by (simpl; lia).
    change (head [x]) with (Some x). cbv iota beta.
    rewrite IH. by rewrite <- app_assoc.
Qed.

Lemma sample_loop_Ok n kwargs todo i pop acc s l :
  (sample_loop n kwargs i todo pop acc s).1 = XOk l →
  ∃ taken,
    l = acc ++ taken ∧ length taken = todo ∧
    ((todo ≤ length pop)%nat → taken ⊆+ pop) ∧
    ((1 ≤ length pop ≤ todo)%nat →
     ∃ front x,
       taken = front ++ replicate (todo - length pop + 1) x ∧
       front ++ [x] ≡ₚ pop).
Proof.
  revert i pop acc s.
  induction todo as [|todo IH]; intros i pop acc s Hl.
  - simpl in Hl. injection Hl as <-. exists []. rewrite app_nil_r.
    repeat split; [intros _; apply submseteq_nil_l|lia].
  - rewrite sample_loop_S in Hl. case_bool_decide as Hlen.
    + destruct pop as [|x [|? ?]]; simpl in Hlen; [done| |lia].
      change (head [x]) with (Some x) in Hl. cbv iota beta in Hl.
      rewrite sample_loop_single in Hl. injection Hl as <-.
      exists (x :: replicate todo x). rewrite <- app_assoc.
      split; [done|]. split; [simpl; by rewrite length_replicate|]. split.
      * intros Hle. simpl in Hle. assert (todo = 0%nat) as -> by lia. done.
      * intros _. exists [], x. simpl. split; [|done].
        by replace (todo - 0 + 1)%nat with (S todo) by lia.
    + destruct (modify_kwargs _ kwargs) as [proc_kwargs|e]; [|done].
      destruct (randrange _ _ _ s) as [[ind|e] s1]; [|done].
      destruct (list_pop pop ind) as [[x rest]|e] eqn:Hpop; [|done].
      apply list_pop_Ok in Hpop.
      apply IH in Hl as (taken & -> & Htaken & Hsub & Hrep).
      assert (length pop = S (length rest)) as Hpoplen by by rewrite Hpop.
      exists (x :: taken). rewrite <- app_assoc.
      split; [done|]. split; [simpl; lia|]. split.
      * intros Hle. rewrite Hpop. apply submseteq_skip, Hsub. lia.
      * intros [Hone Hmany].
        destruct Hrep as (front & x0 & -> & Hperm); [lia|].
        exists (x :: front), x0. split.
        -- simpl. do 3 f_equal. lia.
        -- simpl. by rewrite Hperm, Hpop.
Qed.

Lemma py_len_iter x k pop :
  py_len x = Ok k → py_iter x = Ok pop → k = Z.of_nat (length pop).
Proof.
  destruct x as [| |str|l|l|d| |shape items]; simpl; try done.
  - intros [= <-] [= <-]. rewrite length_fmap. f_equal.
    induction str as [|c str IH]; simpl; [done|]. by rewrite IH.
  - by intros [= <-] [= <-].
  - by intros [= <-] [= <-].
  - intros [= <-] [= <-]. by rewrite !length_fmap, length_map_to_list.
  - destruct shape as [|n shape]; [done|]. intros [= <-] [= <-].
    simpl. by rewrite length_fmap, length_seq.
Qed.

(** X20: [shuffle] returns a permutation of what iterating over its
    argument yields: every element is there, as often as in the argument. *)
Theorem shuffle_permutes (name x : pyval) (kwargs : gmap string pyval)
    (s : state) (l : list pyval) :
  (shuffle name x kwargs s).1 = XOk l →
  ∃ pop, py_iter x = Ok pop ∧ l ≡ₚ pop.
Proof.
  unfold shuffle, sample. destruct (py_len x) as [k|] eqn:Hk; [|done].
  destruct name as [| |n| | | | |]; try done.
  destruct (py_iter x) as [pop|] eqn:Hpop; [|done].
  rewrite (py_len_iter x k pop Hk Hpop), Nat2Z.id. intros Hl.
  exists pop. split; [done|].
  apply sample_loop_Ok in Hl as (taken & -> & Htaken & Hsub & _).
  simpl. apply submseteq_length_Permutation; [by apply Hsub|lia].
Qed.

(** X21: a sample of [k] elements, [k] not above the size of the
    population, has [k] elements, and it is drawn without replacement: no
    element is there more often than in the population. *)
Theorem sample_without_replacement (name population : pyval) (k : Z)
    (kwargs : gmap string pyval) (s : state) (pop l : list pyval) :
  py_iter population = Ok pop →
  0 ≤ k ≤ Z.of_nat (length pop) →
  (sample name population k kwargs s).1 = XOk l →
  Z.of_nat (length l) = k ∧ l ⊆+ pop.
Proof.
  intros Hpop Hk. unfold sample.
  destruct name as [| |n| | | | |]; try done. rewrite Hpop. intros Hl.
  apply sample_loop_Ok in Hl as (taken & -> & Htaken & Hsub & _).
  simpl. split; [lia|]. apply Hsub. lia.
Qed.

(** X22: asked for more elements than the population has, [sample] does
    not fail: it draws all but one, and fills the rest of the sample with
    the element that is left, which is never taken out.  A population of
    one element is sampled without any parameter being declared. *)
Theorem sample_repeats_last (name population : pyval) (k : Z)
    (kwargs : gmap string pyval) (s : state) (pop : list pyval) :
  py_iter population = Ok pop →
  (1 ≤ length pop)%nat →
  Z.of_nat (length pop) < k →
  (∀ l, (sample name population k kwargs s).1 = XOk l →
        ∃ front x,
          l = front ++ replicate (Z.to_nat k - length pop + 1) x ∧
          front ++ [x] ≡ₚ pop) ∧
  (∀ n x, name = PStr n → pop = [x] →
          sample name population k kwargs s =
          (XOk (replicate (Z.to_nat k) x), s)).
Proof.
  intros Hpop Hone Hk. unfold sample. split.
  - intros l. destruct name as [| |n| | | | |]; try done. rewrite Hpop.
    intros Hl.
    apply sample_loop_Ok in Hl as (taken & -> & Htaken & _ & Hrep).
    apply Hrep. lia.
  - intros n x -> ->. rewrite Hpop. apply sample_loop_single.
Qed.

(** X23: the edges of [sample].  A name that is not a string is a
    [TypeError]; with [k] not positive the sample is empty; from an empty
    population a sample of one element or more is an [IndexError].  In all
    three cases nothing is declared and nothing changes. *)
Theorem sample_edges (name population : pyval) (k : Z)
    (kwargs : gmap string pyval) (s : state) :
  (is_Str name = false →
   sample name population k kwargs s =
   (XRaise (Exn (TypeError "name must be string")), s)) ∧
  (is_Str name = true → k ≤ 0 → is_Ok (py_iter population) = true →
   sample name population k kwargs s = (XOk [], s)) ∧
  (is_Str name = true → 0 < k → py_iter population = Ok [] →
   sample name population k kwargs s =
   (XRaise (IndexError "list index out of range"), s)).
Proof.
  unfold sample. split; [by destruct name|]. split.
  - destruct name as [| |n| | | | |]; try done. intros _ Hk.
    destruct (py_iter population); [|done]. intros _.
    by replace (Z.to_nat k) with 0%nat by lia.
  - destruct name as [| |n| | | | |]; try done. intros _ Hk ->.
    destruct (Z.to_nat k) as [|todo] eqn:Htodo; [lia|]. done.
Qed.

Lemma same_env__param name func args kwargs :
  stable same_env (_param name func args kwargs).
Proof. unfold _param, _got_reward, call_backend_param. stable_go; done. Qed.

Lemma declared_names__param name func args kwargs s value :
  (_param name func args kwargs s).1 = Ok value →
  ∃ n, name = PStr n ∧ (n ∉ declared_names s) ∧
       declared_names (_param name func args kwargs s).2 =
       {[n]} ∪ declared_names s.
Proof.
  intros Hok.
  destruct (_param_Ok_inv name func args kwargs s value Hok)
    as (n & r & args' & kwargs' & values & b & -> & Hr & _ & Hn & _ & _ & _ &
        _ & Hs').
  exists n. rewrite Hs'. unfold declared_names. rewrite Hr. simpl.
  split; [done|]. split; [done|]. by rewrite dom_insert_L.
Qed.

Lemma sample_loop_declares n kwargs todo i pop acc s l :
  (sample_loop n kwargs i todo pop acc s).1 = XOk l →
  let s' := (sample_loop n kwargs i todo pop acc s).2 in
  let cells := cell_name n <$> seq i (todo `min` (length pop - 1)) in
  declared_names s' = list_to_set cells ∪ declared_names s ∧
  (∀ c, c ∈ cells → c ∉ declared_names s) ∧
  env s' = env s.
Proof.
  assert (Hnone : ∀ s0 : state,
    declared_names s0 = list_to_set (cell_name n <$> []) ∪ declared_names s0 ∧
    (∀ c, c ∈ cell_name n <$> [] → c ∉ declared_names s0) ∧
    env s0 = env s0).
  { intros s0. simpl. rewrite (left_id_L ∅ (∪)). split; [done|].
    split; [|done]. intros c Hc. by apply elem_of_nil in Hc. }
  revert i pop acc s.
  induction todo as [|todo IH]; intros i pop acc s Hl; cbv zeta.
  - apply Hnone.
  - rewrite sample_loop_S in Hl |- *. case_bool_decide as Hlen.
    + destruct pop as [|x [|? ?]]; simpl in Hlen; [done| |lia].
      change (head [x]) with (Some x) in Hl |- *. cbv iota beta in Hl |- *.
      rewrite sample_loop_single.
      replace (S todo `min` (length [x] - 1))%nat with 0%nat by (simpl; lia).
      apply Hnone.
    + destruct (modify_kwargs _ kwargs) as [proc_kwargs|e]; [|done].
      pose proof (same_env__param (PStr (cell_name n i))
                    "randrange" [PNum (Z.of_nat (length pop))] proc_kwargs s)
        as Henv.
      pose proof (declared_names__param (PStr (cell_name n i))
                    "randrange" [PNum (Z.of_nat (length pop))] proc_kwargs s)
        as Hdecl.
      unfold randrange in Hl |- *.
      destruct (_param _ _ _ _ s) as [[ind|e] s1]; [|done].
      destruct (Hdecl ind eq_refl) as (? & [= <-] & Hfresh & Hnames).
      unfold same_env in Henv. cbn [fst snd] in Henv, Hnames.
      destruct (list_pop pop ind) as [[x rest]|e] eqn:Hpop; [|done].
      apply list_pop_Ok in Hpop.
      assert (length pop = S (length rest)) as Hpoplen by by rewrite Hpop.
      destruct (IH _ _ _ _ Hl) as (Hnames' & Hfresh' & Henv').
      replace (S todo `min` (length pop - 1))%nat
        with (S (todo `min` (length rest - 1))) by lia.
      cbn [seq]. rewrite fmap_cons, list_to_set_cons.
      split; [|split].
      * rewrite Hnames', Hnames, !(assoc_L (∪)). f_equal. apply (comm_L (∪)).
      * intros c [->|Hc]%elem_of_cons; [done|].
        specialize (Hfresh' c Hc). rewrite Hnames in Hfresh'.
        intros Hin. apply Hfresh'. apply elem_of_union. by right.
      * congruence.
Qed.

(** X24: a sample that succeeds declares one parameter for each element it
    draws while two or more are left: the cells [name[0]], [name[1]], ...
    in this order, none of which was declared before; a [shuffle] of [n]
    elements declares [n - 1] of them.  Files, locks and clock are not
    touched. *)
Theorem sample_declares_cells (n : string) (population : pyval) (k : Z)
    (kwargs : gmap string pyval) (s : state) (pop l : list pyval) :
  py_iter population = Ok pop →
  (sample (PStr n) population k kwargs s).1 = XOk l →
  let s' := (sample (PStr n) population k kwargs s).2 in
  let cells := cell_name n <$> seq 0 (Z.to_nat k `min` (length pop - 1)) in
  declared_names s' = list_to_set cells ∪ declared_names s ∧
  (∀ c, c ∈ cells → c ∉ declared_names s) ∧
  env s' = env s.
Proof.
  intros Hpop. unfold sample. rewrite Hpop. apply sample_loop_declares.
Qed.

End SamplingProperties.

(** ** Reading the history *)

(** X25: [get_data] is not a mere reading: it moves the definitions of the
    run into [_old_params].  But it is idempotent: a second call returns
    the same aggregate and changes nothing any more. *)
Theorem get_data_idempotent (s : state) (v : pyval) :
  (get_data s).1 = Ok v →
  let s' := (get_data s).2 in
  get_data s' = (Ok v, s') ∧
  (∃ r d, the_run (self s) = Some r ∧ _old_params (self s) = PDict d ∧
          _old_params (self s') = PDict (_new_params r ∪ d) ∧
          v = history (PDict (_new_params r ∪ d)) (_examples (self s))) ∧
  _examples (self s') = _examples (self s) ∧
  the_run (self s') = the_run (self s) ∧
  env s' = env s.
Proof.
  unfold get_data. rewrite !bind_gets.
  destruct (_old_params (self s)) as [| | | | |d| |] eqn:Hold; try done.
  destruct (the_run (self s)) as [r|] eqn:Hr.
  2:{ by rewrite bind_get_run_None. }
  rewrite (bind_get_run _ _ s r Hr).
  erewrite bind_eq by reflexivity. rewrite bind_gets.
  simpl. intros [= <-]. rewrite Hr. simpl.
  split; [|split; [by exists r, d|done]].
  erewrite bind_get_run by (simpl; exact Hr).
  erewrite bind_eq by reflexivity. rewrite bind_gets. simpl.
  by rewrite (assoc_L (∪)), (idemp_L (∪)).
Qed.

(** ** The two data files of a file name *)

(** X26: the history in JSON and the history in the binary format of one
    file name are kept in different data files, whatever the platform
    takes as the root of a path and as the extension of data files. *)
Theorem data_files_distinct (o o' : optimizer) :
  _file o = _file o' →
  _use_json o = true →
  _use_json o' = false →
  data_file o ≠ data_file o'.
Proof.
  intros Hfile Hjson Hbinary. unfold data_file.
  rewrite Hfile, Hjson, Hbinary. intros Heq.
  do 2 apply (inj (String.append _)) in Heq. discriminate Heq.
Qed.

(** ** Loading a history *)


End Properties.

(** * The properties on the concrete platform *)

Module Examples.
Import Demo.

(** Large states are only ever evaluated down to a boolean. *)
Lemma Some_default {A} (d : A) (o : option A) :
  bool_decide (is_Some o) = true → o = Some (default d o).
Proof. intros [a ->]%bool_decide_eq_true. reflexivity. Qed.

Lemma run_of_Some (s : state) :
  bool_decide (is_Some (the_run (self s))) = true →
  the_run (self s) = Some (run_of s).
Proof. apply Some_default. Qed.



(** After the commit every further declaration, reward or memo is refused. *)
Lemma usage_error_after_reward_witness :
  rewarded committed = true ∧
  is_Raise (randint (PStr "z") (PNum 1) (PNum 6) ∅ committed).1 = true ∧
  is_Raise (maximize (PNum 7) committed).1 = true ∧
  is_Raise (remember (PDict ∅) committed).1 = true.
Proof.
  assert (rewarded committed = true) as Hrewarded by (vm_compute; reflexivity).
  destruct (usage_error_after_reward committed Hrewarded) as (Hp & Hs & Hr).
  split; [exact Hrewarded|]. split; [|split].
  - unfold randint, randrange. simpl. unfold lift. unfold bind at 1.
    rewrite Hp. reflexivity.
  - unfold maximize. rewrite Hs. reflexivity.
  - rewrite Hr. reflexivity.
Defined.

(** The reward of the session that has declared its parameters is committed. *)
Lemma reward_commits_unless_serving_witness :
  declaring (run_of declared) = true ∧
  is_serving_instance (backend (run_of declared)) = false ∧
  commit_requested declared (_set_reward "loss" (PNum 5) declared).2.
Proof.
  split; [vm_compute; reflexivity|]. split; [vm_compute; reflexivity|].
  apply (reward_commits_unless_serving declared (run_of declared) "loss"
           (PNum 5) (PNum 5)).
  - apply run_of_Some. vm_compute. reflexivity.
  - vm_compute. reflexivity.
  - left. reflexivity.
  - reflexivity.
  - vm_compute. reflexivity.
Defined.


(** Loading on the fresh session, whose file is empty, and on the session whose
    file holds a list. *)
Lemma load_empty_or_malformed_witness :
  (_old_params (self (reload fresh).2) = PDict ∅ ∧
   _examples (self (reload fresh).2) = []) ∧
  (_load_data misled).1 = Raise (MatchError (PList [])) ∧
  files (env (_load_data misled).2) = files (env misled).
Proof.
  split.
  - apply (load_empty_or_malformed fresh).
    + vm_compute. intros Hin. discriminate Hin.
    + right. vm_compute. reflexivity.
  - assert (data_file (self misled) ∉ locked (env misled)) as Hfree
      by (vm_compute; intros Hin; discriminate Hin).
    destruct (proj2 (load_empty_or_malformed misled Hfree) "L" (PList []))
      as (Hraise & _ & Hfiles & _).
    + vm_compute. reflexivity.
    + intros Heq. discriminate Heq.
    + vm_compute. reflexivity.
    + intros params examples Heq. discriminate Heq.
    + split; [exact Hraise|exact Hfiles].
Defined.


(** The empty string is a name like any other. *)
Lemma empty_name_accepted :
  (_param (PStr "") "randrange" [PNum 1; PNum 9] ∅ fresh).1 = Ok (PNum 1) ∧
  rewarded fresh = false.
Proof. split; vm_compute; reflexivity. Qed.

Lemma param_name_rejected_witness :
  is_Raise (_param (PNum 3) "randrange" [PNum 1; PNum 9] ∅ fresh).1 = true ∧
  is_Raise (_param (PStr "x") "randrange" [PNum 1; PNum 9] ∅ declared).1 = true.
Proof.
  split.
  - apply (param_name_rejected fresh (PNum 3)). left. reflexivity.
  - apply (param_name_rejected declared (PStr "x")). right.
    exists "x", (run_of declared). split; [reflexivity|].
    split; [apply run_of_Some; vm_compute; reflexivity|].
    refine (bool_decide_eq_true_1 _ _). vm_compute. reflexivity.
Defined.

(** numpy rewards on the session that has declared its parameters. *)
Lemma reward_validated_and_normalized_witness :
  is_Raise (minimize (PArray [2; 2]%nat [1; 2; 3; 4]) declared).1 = true ∧
  stored "loss" (PNum 7) (minimize (PNpNum 7) declared).2 ∧
  stored "loss" (PTuple [PNum 1; PNum 2; PNum 3])
         (minimize (PArray [3%nat] [1; 2; 3]) declared).2.
Proof.
  destruct (reward_validated_and_normalized declared (run_of declared) "loss")
    as (Hreject & Hscalar & Hvector).
  - apply run_of_Some. vm_compute. reflexivity.
  - vm_compute. reflexivity.
  - left. reflexivity.
  - split; [|split].
    + unfold minimize. rewrite (Hreject [2; 2]%nat); [reflexivity|simpl; lia].
    + apply Hscalar.
    + apply (Hvector [1; 2; 3]).
Defined.

(** Construction on the platform whose default protocol is pickle protocol 2. *)
Lemma protocol_selection_witness :
  _protocol (self (BlackBoxOptimizer (PStr "opt.py") PNone empty_world).2) = PNum 2 ∧
  _protocol (self (BlackBoxOptimizer (PStr "opt.py") PNone
                     (World {[ "opt.bbopt.json" := "" ]} ∅ 0 [])).2) = PStr "json" ∧
  _protocol (self (BlackBoxOptimizer (PStr "opt.py") (PNum 4) empty_world).2) = PNum 4.
Proof.
  assert (default_protocol ≠ PStr "json") as Hbinary
    by (intros Heq; discriminate Heq).
  split; [|split].
  - destruct (protocol_selection "opt.py" PNone empty_world Hbinary)
      as (_ & Hnone & _).
    destruct Hnone as [Hp _];
      [reflexivity|vm_compute; reflexivity|vm_compute; reflexivity|exact Hp].
  - destruct (protocol_selection "opt.py" PNone
                (World {[ "opt.bbopt.json" := "" ]} ∅ 0 []) Hbinary)
      as (_ & _ & Hjson & _).
    destruct Hjson as [Hp _]; [reflexivity| |exact Hp].
    refine (bool_decide_eq_true_1 _ _). vm_compute. reflexivity.
  - destruct (protocol_selection "opt.py" (PNum 4) empty_world Hbinary)
      as (Hexplicit & _).
    apply Hexplicit. intros Heq. discriminate Heq.
Defined.

(** ** Further properties on the concrete platform *)


(** The commit of [minimize] leaves no lock behind. *)
Lemma methods_release_locks_witness :
  locked (env (perform (Minimize (PNum 5)) declared).2) = locked (env declared) ∧
  now (env (perform (Minimize (PNum 5)) declared).2) = now (env declared).
Proof. apply (methods_release_locks (Minimize (PNum 5)) declared). reflexivity. Defined.

(** A third parameter is declared without any effect on the world. *)
Lemma silent_calls_leave_world_witness :
  env (perform (Param (PStr "z") "randrange" [PNum 1; PNum 9] ∅) declared).2 =
  env declared.
Proof.
  apply (silent_calls_leave_world
           (Param (PStr "z") "randrange" [PNum 1; PNum 9] ∅) declared).
  reflexivity.
Defined.

(** A session that declares a parameter and sets its loss. *)
Lemma stamped_only_when_rewarded_witness :
  let s := perform_all
             [Run (PStr "first");
              Param (PStr "x") "uniform" [PNum 0; PNum 1] ∅;
              Minimize (PNum 5)]
             (BlackBoxOptimizer (PStr "opt.py") PNone empty_world).2 in
  stamped_is_rewarded (the_run (self s)) ∧
  (∀ r, the_run (self s) = Some r → got_reward r = false →
        declaring r = true).
Proof.
  apply (stamped_only_when_rewarded (PStr "opt.py") PNone empty_world
           [Run (PStr "first");
            Param (PStr "x") "uniform" [PNum 0; PNum 1] ∅;
            Minimize (PNum 5)]).
  reflexivity.
Defined.

(** The constructed session has a current run, also after a commit. *)
Lemma get_current_run_after_construction_witness :
  let s := perform_all [Run (PStr "first"); Minimize (PNum 5)]
             (BlackBoxOptimizer (PStr "opt.py") PNone empty_world).2 in
  ∃ r, the_run (self s) = Some r ∧
       get_current_run s = (Ok (PDict (_current_example r)), s).
Proof.
  apply (get_current_run_after_construction (PStr "opt.py") PNone empty_world
           [Run (PStr "first"); Minimize (PNum 5)]).
  vm_compute. reflexivity.
Defined.




(** [minimize] while another process holds the lock. *)
Lemma reward_without_lock_witness :
  (_set_reward "loss" (PNum 5) contended).1 =
    Raise (LockException (data_file (self contended))) ∧
  rewarded (_set_reward "loss" (PNum 5) contended).2 = true.
Proof.
  destruct (reward_without_lock contended (run_of contended) "loss"
              (PNum 5) (PNum 5))
    as (_ & Hheld & _ & _ & _ & Hrewarded & _);
    [apply run_of_Some; vm_compute; reflexivity
    |vm_compute; reflexivity
    |left; reflexivity
    |reflexivity
    |vm_compute; reflexivity
    |].
  rewrite Hheld.
  - split; [reflexivity|exact Hrewarded].
  - refine (bool_decide_eq_true_1 _ _). vm_compute. reflexivity.
  - refine (bool_decide_eq_true_1 _ _). vm_compute. reflexivity.
Defined.


(** A third parameter on the session that has declared two. *)
Lemma param_recorded_witness :
  (_param (PStr "z") "randrange" [PNum 1; PNum 9] ∅ declared).1 = Ok (PNum 1) ∧
  env (_param (PStr "z") "randrange" [PNum 1; PNum 9] ∅ declared).2 =
    env declared.
Proof.
  assert ((_param (PStr "z") "randrange" [PNum 1; PNum 9] ∅ declared).1 =
          Ok (PNum 1)) as Hok by (vm_compute; reflexivity).
  split; [exact Hok|].
  destruct (param_recorded (PStr "z") "randrange" [PNum 1; PNum 9] ∅ declared
              (PNum 1) Hok)
    as (n & r & r' & args' & kwargs' & values & values' & Hrec).
  apply Hrec.
Defined.

(** Two memos under the same key. *)
Lemma remember_accumulates_witness :
  (remember (PDict {[ "seed" := PNum 1 ]}) declared).1 = Ok tt ∧
  (remember (PDict {[ "seed" := PNum 2 ]})
     (remember (PDict {[ "seed" := PNum 1 ]}) declared).2).1 = Ok tt.
Proof.
  destruct (remember_accumulates declared (run_of declared)
              {[ "seed" := PNum 1 ]} {[ "seed" := PNum 2 ]})
    as (Hfirst & _ & Hsecond & _);
    [apply run_of_Some; vm_compute; reflexivity
    |vm_compute; reflexivity
    |vm_compute; reflexivity
    |].
  split; [exact Hfirst|exact Hsecond].
Defined.

(** The two processes that commit one after the other. *)
Lemma commits_exclusive_witness :
  exclusive (procs after_two_commits).
Proof.
  apply (commits_exclusive Z.leb two_commits two_processes).
  - intros t t' Hle. apply Z.leb_le. exact Hle.
  - vm_compute. reflexivity.
  - apply Some_default. vm_compute. reflexivity.
Defined.

(** The aggregate of the session that has declared its parameters. *)
Lemma get_data_idempotent_witness :
  get_data (get_data declared).2 =
  (Ok (history xy_defs []), (get_data declared).2).
Proof.
  apply (get_data_idempotent declared (history xy_defs [])).
  vm_compute. reflexivity.
Defined.

(** Two objects for the file "opt.py", one for each format. *)
Lemma data_files_distinct_witness :
  data_file (Optimizer "opt.py" (PStr "json") PNone [] None) ≠
  data_file (Optimizer "opt.py" (PNum 2) PNone [] None).
Proof.
  apply (data_files_distinct (Optimizer "opt.py" (PStr "json") PNone [] None)
           (Optimizer "opt.py" (PNum 2) PNone [] None));
    reflexivity.
Defined.


(** Sampling on the platform that draws what "guess" says. *)
Module Drawing.
Import Demo.Drawing.

Lemma shuffle_permutes_witness :
  (shuffle (PStr "p") one_two_three guess_312 drawing).1 =
    XOk [PNum 3; PNum 1; PNum 2] ∧
  ∃ pop, py_iter one_two_three = Ok pop ∧ [PNum 3; PNum 1; PNum 2] ≡ₚ pop.
Proof.
  assert ((shuffle (PStr "p") one_two_three guess_312 drawing).1 =
          XOk [PNum 3; PNum 1; PNum 2]) as Hok by (vm_compute; reflexivity).
  split; [exact Hok|].
  exact (shuffle_permutes (PStr "p") one_two_three guess_312 drawing _ Hok).
Defined.

Lemma sample_without_replacement_witness :
  (sample (PStr "p") one_two_three 2 ∅ drawing).1 = XOk [PNum 1; PNum 2] ∧
  Z.of_nat (length [PNum 1; PNum 2]) = 2 ∧
  [PNum 1; PNum 2] ⊆+ [PNum 1; PNum 2; PNum 3].
Proof.
  assert ((sample (PStr "p") one_two_three 2 ∅ drawing).1 =
          XOk [PNum 1; PNum 2]) as Hok by (vm_compute; reflexivity).
  split; [exact Hok|].
  apply (sample_without_replacement (PStr "p") one_two_three 2 ∅ drawing
           [PNum 1; PNum 2; PNum 3] [PNum 1; PNum 2]).
  - reflexivity.
  - simpl. lia.
  - exact Hok.
Defined.

Lemma sample_repeats_last_witness :
  sample (PStr "p") (PList [PNum 7]) 3 ∅ drawing =
  (XOk [PNum 7; PNum 7; PNum 7], drawing).
Proof.
  destruct (sample_repeats_last (PStr "p") (PList [PNum 7]) 3 ∅ drawing [PNum 7])
    as [_ Hone]; [reflexivity|simpl; lia|simpl; lia|].
  apply (Hone "p" (PNum 7)); reflexivity.
Defined.

Lemma sample_declares_cells_witness :
  declared_names (sample (PStr "p") one_two_three 3 ∅ drawing).2 =
  list_to_set (cell_name "p" <$> seq 0 (Z.to_nat 3 `min` (3 - 1))) ∪
  declared_names drawing.
Proof.
  apply (sample_declares_cells "p" one_two_three 3 ∅ drawing
           [PNum 1; PNum 2; PNum 3] [PNum 1; PNum 2; PNum 3]).
  - reflexivity.
  - vm_compute. reflexivity.
Defined.

End Drawing.

End Examples.
